(** * tmux-ssh: the command-line front end and the session engine it drives

    The development follows [src/tmux_ssh/cli.py].  Python strings are
    modelled as [string], read as sequences of code points below 256
    (Latin-1); integers are [Z]; [None] is [option]'s [None]; a raised
    [ValueError] is the left injection of a sum. *)

From Stdlib Require Import String Ascii List ZArith Lia Bool.
Import ListNotations.

Local Open Scope string_scope.
Local Open Scope list_scope.
Local Open Scope Z_scope.

(** ** Python string primitives used by [cli.py] *)

Module PyStr.

(** [c in s] for a one-character needle. *)
Fixpoint contains (c : ascii) (s : string) : bool :=
  match s with
  | EmptyString => false
  | String a t => if Ascii.eqb a c then true else contains c t
  end.

(** [s.split(c, 1)] when [c] occurs in [s]: the text before the first
    occurrence and the text after it.  [None] when [c] does not occur
    (Python then returns the one-element list [[s]]). *)
Fixpoint split1 (c : ascii) (s : string) : option (string * string) :=
  match s with
  | EmptyString => None
  | String a t =>
      if Ascii.eqb a c then Some (EmptyString, t)
      else match split1 c t with
           | Some (l, r) => Some (String a l, r)
           | None => None
           end
  end.

(** [s.rsplit(c, 1)] when [c] occurs in [s]: the text before the last
    occurrence and the text after it. *)
Fixpoint rsplit1 (c : ascii) (s : string) : option (string * string) :=
  match s with
  | EmptyString => None
  | String a t =>
      match rsplit1 c t with
      | Some (l, r) => Some (String a l, r)
      | None => if Ascii.eqb a c then Some (EmptyString, t) else None
      end
  end.

(** [s.startswith(c)] for a one-character prefix. *)
Definition startswith (c : ascii) (s : string) : bool :=
  match s with
  | EmptyString => false
  | String a _ => Ascii.eqb a c
  end.

(** The decimal digits '0'..'9' (Unicode category Nd below 256). *)
Definition is_decimal (c : ascii) : bool :=
  let n := N_of_ascii c in ((48 <=? n) && (n <=? 57))%N.

(** Characters for which [str.isdigit] holds below 256: the decimal
    digits and the superscripts U+00B2, U+00B3 and U+00B9, whose
    Numeric_Type is Digit. *)
Definition is_digit_char (c : ascii) : bool :=
  let n := N_of_ascii c in
  (is_decimal c || (n =? 178) || (n =? 179) || (n =? 185))%N.

Fixpoint all_chars (p : ascii -> bool) (s : string) : bool :=
  match s with
  | EmptyString => true
  | String a t => p a && all_chars p t
  end.

(** [s.isdigit()]: at least one character, and every character a digit. *)
Definition isdigit (s : string) : bool :=
  match s with
  | EmptyString => false
  | _ => all_chars is_digit_char s
  end.

Definition digit_value (c : ascii) : Z := Z.of_N (N_of_ascii c) - 48.

Fixpoint int_acc (acc : Z) (s : string) : option Z :=
  match s with
  | EmptyString => Some acc
  | String a t =>
      if is_decimal a then int_acc (10 * acc + digit_value a) t else None
  end.

(** The default of [sys.int_max_str_digits]: [int] refuses a decimal
    text with more digits, leading zeros counted. *)
Definition int_max_str_digits : Z := 4300.

Definition within_digit_limit (s : string) : bool :=
  Z.of_nat (String.length s) <=? int_max_str_digits.

(** [int(s)] on a string for which [s.isdigit()] holds: the base-10 value
    when every character is a decimal digit and there are at most
    [int_max_str_digits] of them.  [None] stands for the [ValueError] that
    [int] raises itself: "invalid literal for int()" when a superscript
    digit occurs, "Exceeds the limit (4300 digits)" when the text is
    longer.  Signs, blanks and underscores, which [int] also accepts,
    cannot occur in such a string. *)
Definition int_of_digits (s : string) : option Z :=
  match s with
  | EmptyString => None
  | _ => if within_digit_limit s then int_acc 0 s else None
  end.

(** Characters for which [str.isspace] holds below 256. *)
Definition is_space (c : ascii) : bool :=
  let n := N_of_ascii c in
  (((9 <=? n) && (n <=? 13)) || ((28 <=? n) && (n <=? 32))
   || (n =? 133) || (n =? 160))%N.

Fixpoint lstrip (s : string) : string :=
  match s with
  | EmptyString => EmptyString
  | String a t => if is_space a then lstrip t else s
  end.

Fixpoint rstrip (s : string) : string :=
  match s with
  | EmptyString => EmptyString
  | String a t =>
      match rstrip t with
      | EmptyString => if is_space a then EmptyString else String a EmptyString
      | t' => String a t'
      end
  end.

(** [s.strip()]. *)
Definition strip (s : string) : string := rstrip (lstrip s).

(** [" ".join(l)]. *)
Fixpoint join_spaces (l : list string) : string :=
  match l with
  | [] => EmptyString
  | [x] => x
  | x :: rest => (x ++ " " ++ join_spaces rest)%string
  end.

(** Truthiness of a string, and [x if x else None]. *)
Definition nonempty (s : string) : bool :=
  match s with EmptyString => false | _ => true end.

Definition or_none (s : string) : option string :=
  if nonempty s then Some s else None.

End PyStr.

(** ** [parse_connection_target] *)

Inductive ValueError : Type :=
| InvalidPort (port_str : string)       (* raise ValueError(f"Invalid port: ...") *)
| InvalidLiteral (port_str : string)    (* raised by int(port_str) itself:
                                           bad literal or too many digits *)
| PortOutOfRange (port : Z).            (* raise ValueError(f"Port out of range: ...") *)

Definition target : Type := option string * option string * option Z.

Definition parse_connection_target (arg : string) : ValueError + target :=
  let '(user, host_part) :=
    match PyStr.split1 "@" arg with
    | Some (u, hp) => (Some u, hp)
    | None => (None, arg)
    end in
  let finish (host : string) (port : option Z) : ValueError + target :=
    inr (match user with Some u => PyStr.or_none u | None => None end,
         PyStr.or_none host, port) in
  match PyStr.rsplit1 ":" host_part with
  | Some (host, port_str) =>
      if negb (PyStr.isdigit port_str) then inl (InvalidPort port_str)
      else match PyStr.int_of_digits port_str with
           | None => inl (InvalidLiteral port_str)
           | Some port =>
               if (port <? 1) || (port >? 65535) then inl (PortOutOfRange port)
               else finish host (Some port)
           end
  | None => finish host_part None
  end.

(** ** JSON values and the settings file *)

(** What [json.load] can produce.  Floats, arrays and nested objects are
    only ever type-tested by [main], so their payload is not kept. *)
Inductive json : Type :=
| JNull
| JBool (b : bool)
| JInt (n : Z)
| JFloat
| JStr (s : string)
| JArray
| JObject.

(** A Python [dict] with string keys, in insertion order. *)
Definition dict : Type := list (string * json).

Fixpoint dict_get (k : string) (d : dict) : option json :=
  match d with
  | [] => None
  | (k', v) :: rest => if String.eqb k' k then Some v else dict_get k rest
  end.

(** [d.get(k, default)]. *)
Definition dict_get_default (k : string) (default : json) (d : dict) : json :=
  match dict_get k d with Some v => v | None => default end.

(** A value for which [isinstance(v, int)] holds: an [int], or a [bool]
    (a subclass of [int] in Python). *)
Inductive pyint : Type :=
| PyInt (n : Z)
| PyBool (b : bool).

Definition json_of_pyint (p : pyint) : json :=
  match p with PyInt n => JInt n | PyBool b => JBool b end.

(** The state of [~/.tmux_ssh_config].  A readable file is taken to hold
    a JSON object, as the annotation of [load_saved_config] says. *)
Inductive file : Type :=
| Missing                 (* os.path.exists is False *)
| Unreadable              (* open raises OSError *)
| Malformed               (* json.load raises JSONDecodeError *)
| Content (d : dict).

(** ** The collaborators of [main] *)

Record Config : Type := mkConfig {
  hostname : string;
  username : string;
  port : pyint
}.

(** The calls [main] makes on [TmuxSSHClient]. *)
Inductive client_call : Type :=
| ClearCredentials
| ListRunning
| Cleanup
| Attach (session : option string)
| Kill (session : option string) (force : bool)
| Execute (command : string) (timeout : option Z) (idle_timeout : Z)
          (new_session force auto : bool).

(** What [main] prints; [error] and [warning] only colour the text. *)
Inductive message : Type :=
| ErrorValue (e : ValueError)
| WarningHost (positional0 flag used : string)
| WarningUser (positional0 flag used : string)
| WarningPort (positional0 : string) (flag used : Z)
| ErrorHostRequired
| ErrorUserRequired.

Inductive prompt : Type :=
| AskHostname
| AskUsername
| AskCommand.

Inductive event : Type :=
| Printed (m : message)
| Asked (p : prompt)
| Called (cfg : Config) (last_server : option string) (c : client_call).

Record world : Type := mkWorld {
  config_file : file;
  config_writable : bool;     (* whether open(CONFIG_FILE, "w") succeeds *)
  stdin : list string;
  trace : list event
}.

Inductive exn : Type :=
| EOFError.                   (* input() at end of input *)

(** ** A state-and-exception monad for [main] *)

Definition M (A : Type) : Type := world -> (exn + A) * world.

Definition ret {A : Type} (a : A) : M A := fun w => (inr a, w).

Definition bind {A B : Type} (m : M A) (k : A -> M B) : M B :=
  fun w =>
    match m w with
    | (inr a, w') => k a w'
    | (inl e, w') => (inl e, w')
    end.

Notation "x <- m ;; k" := (bind m (fun x => k))
  (at level 61, m at next level, right associativity).
Notation "m ;;; k" := (bind m (fun _ => k))
  (at level 61, right associativity).

Definition log (e : event) : M unit :=
  fun w => (inr tt, mkWorld (config_file w) (config_writable w) (stdin w)
                            (trace w ++ [e])).

Definition print (m : message) : M unit := log (Printed m).

(** [input(prompt)]. *)
Definition input (p : prompt) : M string :=
  fun w =>
    let t := trace w ++ [Asked p] in
    match stdin w with
    | line :: rest =>
        (inr line, mkWorld (config_file w) (config_writable w) rest t)
    | [] => (inl EOFError, mkWorld (config_file w) (config_writable w) [] t)
    end.

(** ** [load_saved_config] and [save_config] *)

Definition load_saved_config : M dict :=
  fun w =>
    (inr (match config_file w with Content d => d | _ => [] end), w).

Definition save_config (host user : string) (last_server : option string)
    (auto_new_session : bool) (port : pyint) : M unit :=
  fun w =>
    let config : dict :=
      [("host", JStr host); ("user", JStr user);
       ("port", json_of_pyint port);
       ("auto_new_session", JBool auto_new_session)] in
    let config :=
      match last_server with
      | Some s => if PyStr.nonempty s then config ++ [("last_server", JStr s)]
                  else config
      | None => config
      end in
    if config_writable w
    then (inr tt, mkWorld (Content config) true (stdin w) (trace w))
    else (inr tt, w).          (* except OSError: pass *)

(** ** The command line as [argparse] delivers it *)

(** One recognised item of the command line, in order of appearance. *)
Inductive cli_opt : Type :=
| OptHost (s : string)               (* -H / --host *)
| OptUser (s : string)               (* -U / --user *)
| OptPort (n : Z)                    (* -p / --port, type=int *)
| OptClear                           (* -C / --clear *)
| OptTimeout (n : Z)                 (* -t / --timeout, type=int *)
| OptIdleTimeout (n : Z)             (* -i / --idle-timeout, type=int *)
| OptNew                             (* -n / --new *)
| OptForce                           (* -f / --force *)
| OptAttach (session : option string)  (* -a [SESSION] *)
| OptList                            (* -l / --list *)
| OptCleanup                         (* --cleanup *)
| OptKill (session : option string)  (* -k [SESSION] *)
| OptYes                             (* -y / --yes *)
| OptAuto                            (* --auto *)
| OptNoAuto                          (* --no-auto *)
| Positional (s : string).

Record Namespace : Type := mkNamespace {
  arg_host : option string;
  arg_user : option string;
  arg_port : option Z;
  arg_clear : bool;
  arg_timeout : option Z;
  arg_idle_timeout : Z;
  arg_new : bool;
  arg_force : bool;
  arg_attach : option string;
  arg_list : bool;
  arg_cleanup : bool;
  arg_kill : option string;
  arg_yes : bool;
  arg_auto : option bool;
  arg_positional : list string
}.

(** A [store] action: the last occurrence wins, [None] without one. *)
Definition last_value {A : Type} (f : cli_opt -> option A)
    (opts : list cli_opt) : option A :=
  fold_left (fun acc o => match f o with Some v => Some v | None => acc end)
            opts None.

(** [nargs="?"] with [const=""]: the bare flag stores the empty string. *)
Definition optional_value (session : option string) : string :=
  match session with Some s => s | None => EmptyString end.

Definition is_positional (o : cli_opt) : option string :=
  match o with Positional s => Some s | _ => None end.

Fixpoint collect {A : Type} (f : cli_opt -> option A) (opts : list cli_opt)
  : list A :=
  match opts with
  | [] => []
  | o :: rest =>
      match f o with
      | Some v => v :: collect f rest
      | None => collect f rest
      end
  end.

(** [parser.parse_args(args)], with the defaults declared by the
    [add_argument] calls of [main]. *)
Definition parse_args (opts : list cli_opt) : Namespace :=
  {| arg_host := last_value (fun o => match o with OptHost s => Some s | _ => None end) opts;
     arg_user := last_value (fun o => match o with OptUser s => Some s | _ => None end) opts;
     arg_port := last_value (fun o => match o with OptPort n => Some n | _ => None end) opts;
     arg_clear := existsb (fun o => match o with OptClear => true | _ => false end) opts;
     arg_timeout := last_value (fun o => match o with OptTimeout n => Some n | _ => None end) opts;
     arg_idle_timeout :=
       match last_value (fun o => match o with OptIdleTimeout n => Some n | _ => None end) opts with
       | Some n => n
       | None => 3600
       end;
     arg_new := existsb (fun o => match o with OptNew => true | _ => false end) opts;
     arg_force := existsb (fun o => match o with OptForce => true | _ => false end) opts;
     arg_attach := last_value (fun o => match o with OptAttach s => Some (optional_value s) | _ => None end) opts;
     arg_list := existsb (fun o => match o with OptList => true | _ => false end) opts;
     arg_cleanup := existsb (fun o => match o with OptCleanup => true | _ => false end) opts;
     arg_kill := last_value (fun o => match o with OptKill s => Some (optional_value s) | _ => None end) opts;
     arg_yes := existsb (fun o => match o with OptYes => true | _ => false end) opts;
     arg_auto := last_value (fun o => match o with
                                      | OptAuto => Some true
                                      | OptNoAuto => Some false
                                      | _ => None
                                      end) opts;
     arg_positional := collect is_positional opts |}.

(** ** [main] *)

(** Truthiness of [str | None] and [int | None] values. *)
Definition truthy_str (o : option string) : bool :=
  match o with Some s => PyStr.nonempty s | None => false end.

Definition truthy_int (o : option Z) : bool :=
  match o with Some n => negb (n =? 0) | None => false end.

(** [a or b] on [str | None] values. *)
Definition or_str (a b : option string) : option string :=
  if truthy_str a then a else b.

(** [a or b] on [int | None] values. *)
Definition or_int (a b : option Z) : option Z :=
  if truthy_int a then a else b.

(** [v if isinstance(v, str) else None]. *)
Definition str_or_none (v : option json) : option string :=
  match v with Some (JStr s) => Some s | _ => None end.

(** The test that decides whether the first positional argument is a
    connection target. *)
Definition looks_like_target (first_arg : string) : bool :=
  PyStr.contains "@" first_arg
  || (negb (PyStr.startswith "-" first_arg)
      && negb (PyStr.contains "/" first_arg)
      && negb (PyStr.contains " " first_arg)
      && PyStr.contains "." first_arg).

(** The block that splits the positionals into a connection target and
    the words of the command; the [ValueError] is the one [main] reports
    before returning 1. *)
Definition split_positionals (positionals : list string)
  : ValueError + (target * list string) :=
  match positionals with
  | [] => inr ((None, None, None), [])
  | first_arg :: rest =>
      if looks_like_target first_arg then
        match parse_connection_target first_arg with
        | inr t => inr (t, rest)
        | inl e => inl e
        end
      else inr ((None, None, None), positionals)
  end.

(** [target_host or parsed_args.host or (saved_host if isinstance(...))],
    and the same expression for the user. *)
Definition resolve_name (key : string) (from_target flag : option string)
    (saved : dict) : option string :=
  or_str from_target (or_str flag (str_or_none (dict_get key saved))).

(** [target_port or parsed_args.port or (saved_port if isinstance(saved_port,
    int) else 22)] with [saved_port = saved.get("port", 22)]. *)
Definition resolve_port (target_port flag : option Z) (saved : dict) : pyint :=
  match or_int target_port flag with
  | Some n => if n =? 0 then
                match dict_get_default "port" (JInt 22) saved with
                | JInt m => PyInt m
                | JBool b => PyBool b
                | _ => PyInt 22
                end
              else PyInt n
  | None =>
      match dict_get_default "port" (JInt 22) saved with
      | JInt m => PyInt m
      | JBool b => PyBool b
      | _ => PyInt 22
      end
  end.

(** The resolution of [auto]: command line, then saved value, then [True]. *)
Definition resolve_auto (flag : option bool) (saved : dict) : bool :=
  match flag with
  | Some b => b
  | None =>
      match dict_get_default "auto_new_session" (JBool true) saved with
      | JBool b => b
      | _ => true
      end
  end.

Definition when (b : bool) (m : M unit) : M unit :=
  if b then m else ret tt.

Section Main.

(** [TmuxSSHClient(config, last_server=...)] lives in [tmux_ssh.client]:
    a call yields the integer the method returns and the value of
    [client.current_server] read after it. *)
Variable client : Config -> option string -> client_call -> Z * option string.

(** The exit status [main] returns after clearing credentials. *)
Variable EXIT_COMPLETED : Z.

Definition call_client (cfg : Config) (last_server : option string)
    (c : client_call) : M (Z * option string) :=
  log (Called cfg last_server c) ;;; ret (client cfg last_server c).

(** A name that is still missing is asked for; an empty answer ends
    [main] with status 1. *)
Definition or_ask (resolved : option string) (p : prompt) (required : message)
    (k : string -> M Z) : M Z :=
  if truthy_str resolved then
    match resolved with Some name => k name | None => ret 1 end
  else
    line <- input p ;;
    let name := PyStr.strip line in
    if PyStr.nonempty name then k name
    else print required ;;; ret 1.

(** A client call followed by
    [if client.current_server: save_config(...)] and [return result]. *)
Definition run_and_save (cfg : Config) (last_server : option string)
    (host user : string) (auto : bool) (port : pyint) (c : client_call) : M Z :=
  r <- call_client cfg last_server c ;;
  let '(result, current_server) := r in
  when (truthy_str current_server)
       (save_config host user current_server auto port) ;;;
  ret result.

(** The second half of [main], from the resolution of the port on: the
    host and the user are known by then. *)
Definition run_command (parsed_args : Namespace) (saved : dict)
    (target_port : option Z) (command_args : list string)
    (host user : string) : M Z :=
  let port := resolve_port target_port (arg_port parsed_args) saved in
  let auto := resolve_auto (arg_auto parsed_args) saved in
  let last_server := str_or_none (dict_get "last_server" saved) in
  save_config host user last_server auto port ;;;
  let config := mkConfig host user port in
  let run := run_and_save config last_server host user auto port in
  if arg_clear parsed_args then
    call_client config last_server ClearCredentials ;;;
    ret EXIT_COMPLETED
  else if arg_list parsed_args then run ListRunning
  else if arg_cleanup parsed_args then run Cleanup
  else match arg_attach parsed_args with
  | Some a => run (Attach (PyStr.or_none a))
  | None =>
  match arg_kill parsed_args with
  | Some k => run (Kill (PyStr.or_none k) (arg_yes parsed_args))
  | None =>
      let user_cmd := PyStr.join_spaces command_args in
      user_cmd <- (if PyStr.nonempty user_cmd then ret user_cmd
                   else line <- input AskCommand ;; ret (PyStr.strip line)) ;;
      run (Execute user_cmd (arg_timeout parsed_args)
                   (arg_idle_timeout parsed_args) (arg_new parsed_args)
                   (arg_force parsed_args) auto)
  end end.

Definition main (args : list cli_opt) : M Z :=
  saved <- load_saved_config ;;
  let parsed_args := parse_args args in
  let positionals := arg_positional parsed_args in
  match split_positionals positionals with
  | inl e => print (ErrorValue e) ;;; ret 1
  | inr ((target_user, target_host, target_port), command_args) =>
      let first := hd EmptyString positionals in
      when (truthy_str target_host && truthy_str (arg_host parsed_args))
           (print (WarningHost first
                     (optional_value (arg_host parsed_args))
                     (optional_value target_host))) ;;;
      when (truthy_str target_user && truthy_str (arg_user parsed_args))
           (print (WarningUser first
                     (optional_value (arg_user parsed_args))
                     (optional_value target_user))) ;;;
      when (truthy_int target_port && truthy_int (arg_port parsed_args))
           (print (WarningPort first
                     (match arg_port parsed_args with Some n => n | None => 0 end)
                     (match target_port with Some n => n | None => 0 end))) ;;;
      or_ask (resolve_name "host" target_host (arg_host parsed_args) saved)
             AskHostname ErrorHostRequired (fun host =>
      or_ask (resolve_name "user" target_user (arg_user parsed_args) saved)
             AskUsername ErrorUserRequired (fun user =>
      run_command parsed_args saved target_port command_args host user))
  end.

(** One invocation from a fresh trace. *)
Definition run_main (args : list cli_opt) (f : file) (writable : bool)
    (answers : list string) : (exn + Z) * world :=
  main args (mkWorld f writable answers []).

End Main.

(** ** The session engine

    [cli.py] drives [tmux_ssh.client.TmuxSSHClient]; that module is not
    among the sources, so the engine is described here after the
    specification (sections 3 to 7), and the two session naming classes
    after the help text of [--cleanup] in [cli.py]
    ("Clean up idle task_* sessions (keeps remote_task)"). *)

Module Engine.

(** Modelled from the spec: the status of an [ExecutionOutcome]
    (section 3), whose definition in [tmux_ssh/client.py] is missing. *)
Inductive Status : Type :=
| Completed
| Error
| Blocked
| StillRunning.

(** Modelled from the spec: the integers behind [EXIT_COMPLETED],
    [EXIT_ERROR], [EXIT_BLOCKED] and [EXIT_STILL_RUNNING], which
    [tmux_ssh/__init__.py] re-exports from the missing
    [tmux_ssh/client.py].  The specification fixes no values (section 9);
    the rows of the table of section 6 are numbered from 0. *)
Definition exit_code (s : Status) : Z :=
  match s with
  | Completed => 0
  | Error => 1
  | Blocked => 2
  | StillRunning => 3
  end.

(** What a script driving the tool does with the exit status. *)
Definition status_of_exit_code (code : Z) : option Status :=
  if code =? 0 then Some Completed
  else if code =? 1 then Some Error
  else if code =? 2 then Some Blocked
  else if code =? 3 then Some StillRunning
  else None.

(** Modelled from the spec: [ExecutionOutcome] (section 3). *)
Record ExecutionOutcome : Type := mkOutcome {
  status : Status;
  capturedOutput : string
}.

(** Modelled from the spec: what a streaming operation ends with, the
    terminal states of the machine of section 9. *)
Inductive StreamOutcome : Type :=
| Done (o : ExecutionOutcome)
| Interrupted (captured : string).

(** Modelled from the spec: the derived [state] of a [Session]
    (section 3). *)
Module SessionState.
Inductive t : Type :=
| Idle
| Running
| Completed
| Error.
End SessionState.

(** Modelled from the spec: the foreground process of a session, the
    remote truth from which the state is derived. *)
Inductive Process : Type :=
| NoProcess
| Live
| Exited (code : Z).

(** Modelled from the spec: [Session] (section 3), as it lives on the
    remote host. *)
Record Session : Type := mkSession {
  name : string;
  command : string;
  process : Process;
  output : string;
  startedAt : Z;
  lastOutputAt : Z
}.

(** Modelled from the spec: the derived state of a session. *)
Definition state (s : Session) : SessionState.t :=
  match process s with
  | NoProcess => SessionState.Idle
  | Live => SessionState.Running
  | Exited code =>
      if code =? 0 then SessionState.Completed else SessionState.Error
  end.

(** Modelled from the spec: the well-known name of the primary session,
    as the help text of [--cleanup] gives it. *)
Definition primary_name : string := "remote_task".

(** Modelled from the spec: the common prefix of the uniquely-suffixed
    pool names, as the help text of [--cleanup] gives it. *)
Definition pool_prefix : string := "task_".

(** Modelled from the spec: the pool name with a given unique suffix. *)
Definition pool_name (suffix : string) : string :=
  (pool_prefix ++ suffix)%string.

(** Modelled from the spec: the two naming classes of section 3. *)
Definition is_pool (n : string) : bool := String.prefix pool_prefix n.

Definition is_primary (n : string) : bool := String.eqb n primary_name.

(** Modelled from the spec: the Remote Session Store behind a Transport
    that is either reachable or not. *)
Record Remote : Type := mkRemote {
  sessions : list Session;
  reachable : bool
}.

(** Modelled from the spec: the failure of a round trip (section 4.1). *)
Inductive ConnectionError : Type :=
| Unreachable.

(** Modelled from the spec: one round trip through the Transport. *)
Inductive RemoteCmd : Type :=
| ListSessions
| QueryRunning (n : string)
| CapturePane (n : string)
| Dispatch (n : string) (cmd : string) (now : Z)
| KillProcess (n : string)
| KillSession (n : string).

(** Modelled from the spec: the round trips that only query. *)
Definition read_only (c : RemoteCmd) : bool :=
  match c with
  | ListSessions | QueryRunning _ | CapturePane _ => true
  | Dispatch _ _ _ | KillProcess _ | KillSession _ => false
  end.

Definition named (n : string) (s : Session) : bool := String.eqb (name s) n.

(** Modelled from the spec: the effect of a round trip on the store.
    Dispatching creates the session when it is absent. *)
Definition apply_cmd (st : list Session) (c : RemoteCmd) : list Session :=
  match c with
  | ListSessions | QueryRunning _ | CapturePane _ => st
  | Dispatch n cmd now =>
      let fresh := mkSession n cmd Live EmptyString now now in
      if existsb (named n) st
      then map (fun s => if named n s then fresh else s) st
      else st ++ [fresh]
  | KillProcess n =>
      map (fun s => if named n s
                    then mkSession (name s) (command s) NoProcess (output s)
                                   (startedAt s) (lastOutputAt s)
                    else s) st
  | KillSession n => filter (fun s => negb (named n s)) st
  end.

Definition apply_all (st : list Session) (cs : list RemoteCmd) : list Session :=
  fold_left apply_cmd cs st.

(** *** Session Registry (section 4.1) *)

Module Registry.

(** Modelled from the spec: [list()]. *)
Definition list (r : Remote) : ConnectionError + list Session :=
  if reachable r then inr (sessions r) else inl Unreachable.

(** Modelled from the spec: [exists(name)]. *)
Definition exists_ (r : Remote) (n : string) : ConnectionError + bool :=
  if reachable r then inr (existsb (named n) (sessions r)) else inl Unreachable.

(** Modelled from the spec: [isRunning(name)]. *)
Definition isRunning (r : Remote) (n : string) : ConnectionError + bool :=
  if reachable r
  then inr (existsb (fun s => named n s
                              && match process s with Live => true | _ => false end)
                    (sessions r))
  else inl Unreachable.

End Registry.

(** *** Output Streamer (section 4.3) *)

(** Modelled from the spec: what one iteration of the poll loop meets,
    namely the output fetched at some wall-clock time and whether the
    process has exited, a transport failure, or the interrupt signal. *)
Inductive PollEvent : Type :=
| Observed (now : Z) (out : string) (exited : bool)
| TransportFailure
| Interrupt.

(** Modelled from the spec: what the loop has produced when a script of
    events is used up. *)
Record StreamResult : Type := mkStream {
  result : option StreamOutcome;   (* [None]: the loop is still polling *)
  emitted : list string;
  polls : list RemoteCmd
}.

(** Modelled from the spec: step (b), "output grew since the prior
    poll". *)
Definition grew (captured out : string) : bool :=
  (String.length captured <? String.length out)%nat.

(** Modelled from the spec: the captured output after a poll that
    fetched [out]. *)
Definition absorb (captured out : string) : string :=
  if grew captured out then out else captured.

(** Modelled from the spec: the new suffix handed to the caller. *)
Definition new_suffix (captured out : string) : list string :=
  if grew captured out
  then [substring (String.length captured)
                  (String.length out - String.length captured) out]
  else [].

(** Modelled from the spec: a wall-clock limit is reached; an unset
    limit never is. *)
Definition elapsed (limit : option Z) (since now : Z) : bool :=
  match limit with
  | Some t => t <=? now - since
  | None => false
  end.

(** Modelled from the spec: the poll loop, steps (a) to (f). *)
Fixpoint poll (session : string) (timeout : option Z) (idleTimeout : Z)
    (start : Z) (captured : string) (idleSince : Z)
    (script : list PollEvent) : StreamResult :=
  match script with
  | [] => mkStream None [] []
  | Interrupt :: _ => mkStream (Some (Interrupted captured)) [] []
  | TransportFailure :: _ =>
      mkStream (Some (Done (mkOutcome Error captured))) []
               [CapturePane session]
  | Observed now out exited :: rest =>
      let captured' := absorb captured out in
      let idleSince' := if grew captured out then now else idleSince in
      let chunk := new_suffix captured out in
      let trips := [CapturePane session; QueryRunning session] in
      if exited then
        mkStream (Some (Done (mkOutcome Completed captured'))) chunk trips
      else if elapsed (Some idleTimeout) idleSince' now then
        mkStream (Some (Done (mkOutcome StillRunning captured'))) chunk trips
      else if elapsed timeout start now then
        mkStream (Some (Done (mkOutcome StillRunning captured'))) chunk trips
      else
        let r := poll session timeout idleTimeout start captured' idleSince' rest in
        mkStream (result r) (chunk ++ emitted r) (trips ++ polls r)
  end.

(** Modelled from the spec: [stream(sessionName, timeout, idleTimeout)]. *)
Definition stream (session : string) (timeout : option Z) (idleTimeout : Z)
    (start : Z) (script : list PollEvent) : StreamResult :=
  poll session timeout idleTimeout start EmptyString start script.

(** The output fetched by the polls of a script, folded as the loop does. *)
Fixpoint captured_after (captured : string) (script : list PollEvent) : string :=
  match script with
  | Observed _ out _ :: rest => captured_after (absorb captured out) rest
  | _ :: rest => captured_after captured rest
  | [] => captured
  end.

(** *** Execution Controller (section 4.2) *)

(** Modelled from the spec: the options of [execute] (section 6). *)
Record Options : Type := mkOptions {
  timeout : option Z;
  idleTimeout : Z;
  newSession : bool;
  force : bool;
  auto : bool
}.

(** Modelled from the spec: what [execute] hands back, with the session
    name actually used and the round trips it made. *)
Record ExecResult : Type := mkExec {
  outcome : option StreamOutcome;  (* [None]: still streaming when the script ends *)
  current_server : option string;
  shown : list string;
  issued : list RemoteCmd
}.

(** Modelled from the spec: step 1 of [execute]. *)
Definition resolve_target (targetName : option string) (newSession : bool)
    (suffix : string) : string :=
  if newSession then pool_name suffix
  else match targetName with
       | Some n => n
       | None => primary_name
       end.

(** Modelled from the spec: "dispatch [command] into the session and
    proceed to streaming". *)
Definition dispatch_and_stream (before : list RemoteCmd) (n cmd : string)
    (o : Options) (now : Z) (script : list PollEvent) : ExecResult :=
  let r := stream n (timeout o) (idleTimeout o) now script in
  mkExec (result r) (Some n) (emitted r)
         (before ++ [Dispatch n cmd now] ++ polls r).

(** Modelled from the spec: [execute], steps 1 to 4.  [suffix] is the
    unique suffix the allocator of pool names would hand out. *)
Definition execute (r : Remote) (now : Z) (suffix : string) (cmd : string)
    (targetName : option string) (o : Options) (script : list PollEvent)
  : ExecResult :=
  let target := resolve_target targetName (newSession o) suffix in
  match Registry.isRunning r target with
  | inl _ => mkExec (Some (Done (mkOutcome Error EmptyString))) None []
                    [QueryRunning target]
  | inr running =>
      if negb running then
        dispatch_and_stream [QueryRunning target] target cmd o now script
      else if force o then
        dispatch_and_stream [QueryRunning target; KillProcess target]
                            target cmd o now script
      else if auto o then
        dispatch_and_stream [QueryRunning target] (pool_name suffix) cmd o
                            now script
      else
        mkExec (Some (Done (mkOutcome Blocked EmptyString))) None []
               [QueryRunning target]
  end.

(** *** Lifecycle Manager (section 4.4) *)

(** Modelled from the spec: the sessions [cleanup] destroys, pool-class
    and [Idle] or [Completed], the primary name always exempt. *)
Definition reclaimable (s : Session) : bool :=
  is_pool (name s)
  && negb (is_primary (name s))
  && match state s with
     | SessionState.Idle | SessionState.Completed => true
     | _ => false
     end.

(** Modelled from the spec: the outcome of a lifecycle operation and the
    round trips it made. *)
Record LifecycleResult : Type := mkLifecycle {
  lifecycle_status : Status;
  lifecycle_issued : list RemoteCmd
}.

(** Modelled from the spec: [cleanup()]. *)
Definition cleanup (r : Remote) : LifecycleResult :=
  match Registry.list r with
  | inl _ => mkLifecycle Error [ListSessions]
  | inr ss =>
      mkLifecycle Completed
        (ListSessions :: map (fun s => KillSession (name s)) (filter reclaimable ss))
  end.

(** *** Auxiliary notions for the statements *)

(** The start of the idle clock after the polls of a script. *)
Fixpoint idle_since_after (captured : string) (idleSince : Z)
    (script : list PollEvent) : Z :=
  match script with
  | Observed now out _ :: rest =>
      idle_since_after (absorb captured out)
                       (if grew captured out then now else idleSince) rest
  | _ :: rest => idle_since_after captured idleSince rest
  | [] => idleSince
  end.


Definition is_kill (c : RemoteCmd) : bool :=
  match c with
  | KillProcess _ | KillSession _ => true
  | _ => false
  end.

(** A host with the primary session idle, one pool session idle, one
    pool session busy and one pool session finished. *)
Definition sample_remote : Remote :=
  mkRemote
    [mkSession "remote_task" "make" NoProcess "done" 0 5;
     mkSession "task_1" "ls" NoProcess "a b" 10 11;
     mkSession "task_2" "sleep 100" Live "" 20 20;
     mkSession "task_3" "true" (Exited 0) "" 30 30]
    true.

(** Two quiet polls: output grows once, the process keeps running. *)
Definition sample_script : list PollEvent :=
  [Observed 1 "he" false; Observed 2 "hello" false].

End Engine.

(** ** The words of the specification about connection targets *)

Module TargetSpec.

(** The host part: the text after the first '@', or the whole argument. *)
Definition host_part (arg : string) : string :=
  match PyStr.split1 "@" arg with
  | Some (_, hp) => hp
  | None => arg
  end.

(** The text after the last ':' of the host part, when there is a ':'. *)
Definition port_text (arg : string) : option string :=
  match PyStr.rsplit1 ":" (host_part arg) with
  | Some (_, p) => Some p
  | None => None
  end.

(** A numeric text: one decimal digit or more, and nothing else. *)
Definition numeric (s : string) : bool :=
  PyStr.nonempty s && PyStr.all_chars PyStr.is_decimal s.

(** The number a numeric text names, most significant digit first. *)
Definition decimal_value (s : string) : Z :=
  fold_left (fun acc c => 10 * acc + PyStr.digit_value c)
            (list_ascii_of_string s) 0.

Definition valid_port (n : Z) : Prop := 1 <= n <= 65535.

(** The condition under which the claim says [ValueError] is raised. *)
Definition bad_port (arg : string) : Prop :=
  exists p, port_text arg = Some p
            /\ (numeric p = false \/ ~ valid_port (decimal_value p)).

(** The condition under which [ValueError] is raised: the port text is
    not numeric, or has more digits than [int] converts, or names a
    number outside 1..65535. *)
Definition refused_port (arg : string) : Prop :=
  exists p, port_text arg = Some p
            /\ (numeric p = false
                \/ PyStr.within_digit_limit p = false
                \/ ~ valid_port (decimal_value p)).



End TargetSpec.

(** What [parse_connection_target] does with the text after the last ':'
    of the host part, for a fixed user and host. *)
Definition port_step (user : option string) (host port_str : string)
  : ValueError + target :=
  if negb (PyStr.isdigit port_str) then inl (InvalidPort port_str)
  else match PyStr.int_of_digits port_str with
       | None => inl (InvalidLiteral port_str)
       | Some port =>
           if (port <? 1) || (port >? 65535) then inl (PortOutOfRange port)
           else inr (user, PyStr.or_none host, Some port)
       end.


(** ** Reasoning about [main]: pre- and postconditions *)

(** [hoare P m Q]: from a world that satisfies [P], the computation [m]
    ends, with a result or an exception, in a world for which [Q] holds. *)
Definition hoare {A : Type} (P : world -> Prop) (m : M A)
    (Q : exn + A -> world -> Prop) : Prop :=
  forall w, P w -> Q (fst (m w)) (snd (m w)).

(** The postcondition that passes an exception on and demands [R] of a
    result. *)
Definition on_result {A B : Type} (R : A -> world -> Prop)
    (Q : exn + B -> world -> Prop) : exn + A -> world -> Prop :=
  fun r w =>
    match r with
    | inr a => R a w
    | inl e => Q (inl e) w
    end.

(** The settings [load_saved_config] reads from a file. *)
Definition saved_of (f : file) : dict :=
  match f with Content d => d | _ => [] end.

(** The events of a trace that are client calls. *)
Definition is_call (e : event) : bool :=
  match e with Called _ _ _ => true | _ => false end.

(** Every client call of a trace satisfies [good]. *)
Definition calls_satisfy (good : Config -> option string -> client_call -> Prop)
    (t : list event) : Prop :=
  forall cfg ls c, In (Called cfg ls c) t -> good cfg ls c.

(** The dictionary [save_config] writes for a configuration, an [auto]
    setting and a session name. *)
Definition settings (cfg : Config) (auto : bool) (last_server : string) : dict :=
  [("host", JStr (hostname cfg)); ("user", JStr (username cfg));
   ("port", json_of_pyint (port cfg)); ("auto_new_session", JBool auto);
   ("last_server", JStr last_server)].

(** ** Sample collaborators, for concrete runs *)

(** A client whose every call returns 0 and reports the session
    ["remote_task"]. *)
Definition sample_client (cfg : Config) (last_server : option string)
    (c : client_call) : Z * option string :=
  (0, Some "remote_task").

(** A client that reports the empty string as its current server. *)
Definition nameless_client (cfg : Config) (last_server : option string)
    (c : client_call) : Z * option string :=
  (0, Some EmptyString).

(** A property of worlds that printing, asking and reading a line leave
    alone. *)
Definition quiet (I : world -> Prop) : Prop :=
  forall f wr st st' t e,
    is_call e = false ->
    I (mkWorld f wr st t) -> I (mkWorld f wr st' (t ++ [e])).

(** What the arguments of a client call owe to the command line and the
    saved settings. *)
Definition call_from (ns : Namespace) (saved : dict) (c : client_call) : Prop :=
  match c with
  | Execute _ t i n f a =>
      t = arg_timeout ns /\ i = arg_idle_timeout ns /\ n = arg_new ns
      /\ f = arg_force ns /\ a = resolve_auto (arg_auto ns) saved
  | Kill _ y => y = arg_yes ns
  | _ => True
  end.

(** A name [main] goes on with: the resolved one, or an answer typed at
    the prompt when nothing usable was resolved. *)
Definition settled (resolved : option string) (name : string) : Prop :=
  PyStr.nonempty name = true
  /\ (truthy_str resolved = true -> resolved = Some name).

(** What [main] guarantees of every client call it makes. *)
Definition call_of_main (args : list cli_opt) (f : file)
    (cfg : Config) (last_server : option string) (c : client_call) : Prop :=
  let ns := parse_args args in
  let saved := saved_of f in
  exists target_user target_host target_port command_args,
    split_positionals (arg_positional ns)
    = inr ((target_user, target_host, target_port), command_args)
    /\ settled (resolve_name "host" target_host (arg_host ns) saved) (hostname cfg)
    /\ settled (resolve_name "user" target_user (arg_user ns) saved) (username cfg)
    /\ port cfg = resolve_port target_port (arg_port ns) saved
    /\ last_server = str_or_none (dict_get "last_server" saved)
    /\ call_from ns saved c.

(** [tmux-ssh bob@example.org ls]. *)
Definition sample_args : list cli_opt :=
  [Positional "bob@example.org"; Positional "ls"].

(** [tmux-ssh -p 0 bob@example.org ls]. *)
Definition port_zero_args : list cli_opt :=
  [OptPort 0; Positional "bob@example.org"; Positional "ls"].

(** A settings file left by an earlier run against port 2222. *)
Definition sample_settings : dict :=
  [("host", JStr "example.org"); ("user", JStr "bob"); ("port", JInt 2222);
   ("auto_new_session", JBool true); ("last_server", JStr "task_7")].

(** The words of the claim about the first positional argument: it
    holds an '@', or it does not start with '-' and holds a '.' but
    neither a '/' nor a space. *)
Definition target_shaped (first_arg : string) : Prop :=
  PyStr.contains "@" first_arg = true
  \/ (PyStr.startswith "-" first_arg = false
      /\ PyStr.contains "." first_arg = true
      /\ PyStr.contains "/" first_arg = false
      /\ PyStr.contains " " first_arg = false).

(** The first positional argument is consumed as a connection target:
    it goes through [parse_connection_target] and the command is made
    of the remaining words only. *)
Definition consumed_as_target (first_arg : string) (rest : list string) : Prop :=
  split_positionals (first_arg :: rest)
  = match parse_connection_target first_arg with
    | inr t => inr (t, rest)
    | inl e => inl e
    end.

(** No client call was made yet, and the settings file can be written. *)
Definition before_call (w : world) : Prop :=
  config_writable w = true /\ calls_satisfy (fun _ _ _ => False) (trace w).

(** The settings file holds the session name reported by every client
    call other than [clear_credentials], next to settings that are the
    caller's own. *)
Definition persisted
    (client : Config -> option string -> client_call -> Z * option string)
    (auto : bool) (w : world) : Prop :=
  forall cfg ls c s,
    In (Called cfg ls c) (trace w) ->
    c <> ClearCredentials ->
    snd (client cfg ls c) = Some s ->
    s <> EmptyString ->
    config_file w = Content (settings cfg auto s).

(** ** Notions for the further properties of [main] *)

(** The world after some more events. *)
Definition emit (w : world) (es : list event) : world :=
  mkWorld (config_file w) (config_writable w) (stdin w) (trace w ++ es).

(** The world after one line of input was read at a prompt. *)
Definition answered (w : world) (p : prompt) (rest : list string) : world :=
  mkWorld (config_file w) (config_writable w) rest (trace w ++ [Asked p]).

Definition no_calls (es : list event) : Prop :=
  forall cfg ls c, ~ In (Called cfg ls c) es.

(** A world reached by printing and prompting only: the settings file is
    as it was, no client call was made, and what is left of the input is
    a suffix of what was there. *)
Definition quiet_step (w w' : world) : Prop :=
  config_file w' = config_file w
  /\ config_writable w' = config_writable w
  /\ (exists es, trace w' = trace w ++ es /\ no_calls es)
  /\ exists used, stdin w = used ++ stdin w'.

(** The conflict warnings of [main], in the order they are printed. *)
Definition warnings (ns : Namespace) (target_user target_host : option string)
    (target_port : option Z) : list event :=
  let first := hd EmptyString (arg_positional ns) in
  (if truthy_str target_host && truthy_str (arg_host ns)
   then [Printed (WarningHost first (optional_value (arg_host ns))
                              (optional_value target_host))]
   else [])
  ++ (if truthy_str target_user && truthy_str (arg_user ns)
      then [Printed (WarningUser first (optional_value (arg_user ns))
                                 (optional_value target_user))]
      else [])
  ++ (if truthy_int target_port && truthy_int (arg_port ns)
      then [Printed (WarningPort first
                       (match arg_port ns with Some n => n | None => 0 end)
                       (match target_port with Some n => n | None => 0 end))]
      else []).

(** The status [main] returns without having called the client. *)
Definition gave_up (r : exn + Z) : Prop := r = inr 1 \/ r = inl EOFError.

(** No mode flag is given: [main] is to run a command. *)
Definition command_mode (ns : Namespace) : Prop :=
  arg_clear ns = false /\ arg_list ns = false /\ arg_cleanup ns = false
  /\ arg_attach ns = None /\ arg_kill ns = None.

(** The call the mode flags select, in the order [main] tests them, with
    the command text [text] when it comes to [execute]. *)
Definition selects (ns : Namespace) (auto : bool) (text : string)
    (c : client_call) : Prop :=
  if arg_clear ns then c = ClearCredentials
  else if arg_list ns then c = ListRunning
  else if arg_cleanup ns then c = Cleanup
  else match arg_attach ns with
       | Some a => c = Attach (PyStr.or_none a)
       | None =>
           match arg_kill ns with
           | Some k => c = Kill (PyStr.or_none k) (arg_yes ns)
           | None => c = Execute text (arg_timeout ns) (arg_idle_timeout ns)
                                 (arg_new ns) (arg_force ns) auto
           end
       end.

(** Two worlds that differ in the settings file at most. *)
Definition same_io (w1 w2 : world) : Prop :=
  stdin w1 = stdin w2 /\ trace w1 = trace w2.

(** A computation that does not look at the settings file. *)
Definition blind {A : Type} (m : M A) : Prop :=
  forall w1 w2, same_io w1 w2 ->
                fst (m w1) = fst (m w2) /\ same_io (snd (m w1)) (snd (m w2)).

(** The entry [save_config] writes for the session name, if any. *)
Definition last_server_entry (d : dict) : option string :=
  str_or_none (dict_get "last_server" d).

(** [tmux-ssh --no-auto bob@example.org ls]. *)
Definition no_auto_args : list cli_opt :=
  [OptNoAuto; Positional "bob@example.org"; Positional "ls"].

(** [tmux-ssh uptime]: no target, one command word. *)
Definition bare_args : list cli_opt := [Positional "uptime"].

(** A client that reports no session. *)
Definition silent_client (cfg : Config) (last_server : option string)
    (c : client_call) : Z * option string :=
  (3, None).

(** The settings a run leaves behind once the client was built: the
    resolved host, user, port and [auto], and the session name [hint]. *)
Definition remembers (w : world) (cfg : Config) (auto : bool)
    (hint : option string) : Prop :=
  exists d,
    config_file w = Content d
    /\ dict_get "host" d = Some (JStr (hostname cfg))
    /\ dict_get "user" d = Some (JStr (username cfg))
    /\ dict_get "port" d = Some (json_of_pyint (port cfg))
    /\ dict_get "auto_new_session" d = Some (JBool auto)
    /\ last_server_entry d = hint.

(** The session name kept after a call: the one the client reports when
    it is usable, else the one saved before. *)
Definition kept_hint (clear : bool) (reported saved_before : option string)
  : option string :=
  if negb clear && truthy_str reported then reported
  else if truthy_str saved_before then saved_before
  else None.

(** The number of prompts among some events. *)
Definition prompts (es : list event) : nat :=
  List.length (filter (fun e => match e with Asked _ => true | _ => false end)
                      es).

(** A world reached on the way to the client: each prompt met so far was
    answered by one line of the input, in order, none of them was the
    command prompt, the settings file is as it was and no client call
    was made. *)
Definition ready_step (w w' : world) : Prop :=
  config_file w' = config_file w
  /\ config_writable w' = config_writable w
  /\ exists es used,
      trace w' = trace w ++ es
      /\ stdin w = used ++ stdin w'
      /\ no_calls es
      /\ ~ In (Asked AskCommand) es
      /\ List.length used = prompts es.

(** * Properties *)

(** ** Strings *)

Lemma contains_app (c : ascii) (l r : string) :
  PyStr.contains c (l ++ r)%string = PyStr.contains c l || PyStr.contains c r.
Proof.
  induction l as [|a l IH]; simpl; [reflexivity|].
  destruct (Ascii.eqb a c); [reflexivity | exact IH].
Qed.

Lemma split1_none (c : ascii) (s : string) :
  PyStr.split1 c s = None <-> PyStr.contains c s = false.
Proof.
  induction s as [|a s IH]; simpl; [tauto|].
  destruct (Ascii.eqb a c); [split; discriminate|].
  destruct (PyStr.split1 c s) as [[l r]|].
  - split; [discriminate|]. intros H. apply IH in H. discriminate.
  - split; [intros _; apply IH; reflexivity | reflexivity].
Qed.

(** [split1] cuts at the first occurrence of the separator. *)
Lemma split1_some (c : ascii) (s l r : string) :
  PyStr.split1 c s = Some (l, r) <->
  s = (l ++ String c r)%string /\ PyStr.contains c l = false.
Proof.
  revert l. induction s as [|a s IH]; intros l; simpl.
  - split; [discriminate|]. intros [H _]. destruct l; discriminate.
  - destruct (Ascii.eqb a c) eqn:E.
    + apply Ascii.eqb_eq in E. subst a. split.
      * intros H. injection H as <- <-. split; reflexivity.
      * intros [H Hl]. destruct l as [|b l]; simpl in *.
        -- injection H as <-. reflexivity.
        -- injection H as <- _. rewrite Ascii.eqb_refl in Hl. discriminate.
    + split.
      * destruct (PyStr.split1 c s) as [[l' r']|] eqn:S; [|discriminate].
        intros H. injection H as <- <-.
        destruct (proj1 (IH l') eq_refl) as [-> Hl].
        simpl. rewrite E. split; [reflexivity | exact Hl].
      * intros [H Hl]. destruct l as [|b l]; simpl in *.
        -- injection H as -> _. rewrite Ascii.eqb_refl in E. discriminate.
        -- injection H as <- ->. rewrite E in Hl.
           rewrite (proj2 (IH l) (conj eq_refl Hl)). reflexivity.
Qed.

Lemma rsplit1_none (c : ascii) (s : string) :
  PyStr.rsplit1 c s = None <-> PyStr.contains c s = false.
Proof.
  induction s as [|a s IH]; simpl; [tauto|].
  destruct (PyStr.rsplit1 c s) as [[l r]|].
  - split; [discriminate|]. destruct (Ascii.eqb a c); [discriminate|].
    intros H. apply IH in H. discriminate.
  - destruct (Ascii.eqb a c); [split; discriminate|].
    split; [intros _; apply IH; reflexivity | reflexivity].
Qed.

(** [rsplit1] cuts at the last occurrence of the separator. *)
Lemma rsplit1_some (c : ascii) (s l r : string) :
  PyStr.rsplit1 c s = Some (l, r) <->
  s = (l ++ String c r)%string /\ PyStr.contains c r = false.
Proof.
  revert l. induction s as [|a s IH]; intros l; simpl.
  - split; [discriminate|]. intros [H _]. destruct l; discriminate.
  - destruct (PyStr.rsplit1 c s) as [[l' r']|] eqn:S.
    + split.
      * intros H. injection H as <- <-.
        destruct (proj1 (IH l') eq_refl) as [-> Hr].
        split; [reflexivity | exact Hr].
      * intros [H Hr2]. destruct l as [|b l]; simpl in H.
        -- injection H as -> <-. apply rsplit1_none in Hr2.
           rewrite Hr2 in S. discriminate.
        -- injection H as <- H.
           pose proof (proj2 (IH l) (conj H Hr2)) as E.
           injection E as -> ->. reflexivity.
    + pose proof (proj1 (rsplit1_none c s) S) as Hn. split.
      * destruct (Ascii.eqb a c) eqn:E; [|discriminate].
        apply Ascii.eqb_eq in E. subst a.
        intros H. injection H as <- <-. split; [reflexivity | exact Hn].
      * intros [H Hr]. destruct l as [|b l]; simpl in H.
        -- injection H as -> <-. rewrite Ascii.eqb_refl. reflexivity.
        -- injection H as <- H. rewrite H, contains_app in Hn. simpl in Hn.
           rewrite Ascii.eqb_refl, orb_true_r in Hn. discriminate.
Qed.

Lemma or_none_not_empty (s : string) : PyStr.or_none s <> Some EmptyString.
Proof. destruct s; unfold PyStr.or_none; simpl; discriminate. Qed.

Lemma decimal_is_digit (c : ascii) :
  PyStr.is_decimal c = true -> PyStr.is_digit_char c = true.
Proof. unfold PyStr.is_digit_char. intros ->. reflexivity. Qed.

Lemma all_decimal_all_digit (s : string) :
  PyStr.all_chars PyStr.is_decimal s = true ->
  PyStr.all_chars PyStr.is_digit_char s = true.
Proof.
  induction s as [|a s IH]; simpl; [reflexivity|].
  intros H. apply andb_true_iff in H as [Ha Hs].
  rewrite (decimal_is_digit _ Ha), (IH Hs). reflexivity.
Qed.

Lemma int_acc_value (s : string) (acc : Z) :
  PyStr.int_acc acc s =
  if PyStr.all_chars PyStr.is_decimal s
  then Some (fold_left (fun a c => 10 * a + PyStr.digit_value c)
                       (list_ascii_of_string s) acc)
  else None.
Proof.
  revert acc. induction s as [|a s IH]; intros acc; simpl; [reflexivity|].
  destruct (PyStr.is_decimal a); simpl; [apply IH | reflexivity].
Qed.

(** [int] succeeds on exactly the numeric texts within the digit limit,
    with their value. *)
Lemma int_of_digits_numeric (s : string) :
  PyStr.int_of_digits s =
  if TargetSpec.numeric s && PyStr.within_digit_limit s
  then Some (TargetSpec.decimal_value s)
  else None.
Proof.
  unfold PyStr.int_of_digits, TargetSpec.numeric, TargetSpec.decimal_value.
  destruct s as [|a s]; [reflexivity|].
  simpl PyStr.nonempty. rewrite andb_true_l.
  destruct (PyStr.within_digit_limit (String a s)).
  - rewrite andb_true_r, int_acc_value. reflexivity.
  - rewrite andb_false_r. reflexivity.
Qed.

Lemma numeric_isdigit (s : string) :
  TargetSpec.numeric s = true -> PyStr.isdigit s = true.
Proof.
  unfold TargetSpec.numeric, PyStr.isdigit. destruct s as [|a s]; [discriminate|].
  simpl PyStr.nonempty. rewrite andb_true_l. apply all_decimal_all_digit.
Qed.

(** ** [parse_connection_target] *)

Lemma range_test (n : Z) :
  (n <? 1) || (n >? 65535) = false <-> TargetSpec.valid_port n.
Proof.
  unfold TargetSpec.valid_port. rewrite orb_false_iff, Z.ltb_ge, Z.gtb_ltb, Z.ltb_ge.
  tauto.
Qed.

Lemma port_step_ok (user : option string) (host p : string) (u h : option string)
    (port : option Z) :
  port_step user host p = inr (u, h, port) ->
  u = user /\ h = PyStr.or_none host
  /\ TargetSpec.numeric p = true
  /\ port = Some (TargetSpec.decimal_value p)
  /\ TargetSpec.valid_port (TargetSpec.decimal_value p).
Proof.
  unfold port_step. destruct (PyStr.isdigit p); simpl; [|discriminate].
  rewrite int_of_digits_numeric. destruct (TargetSpec.numeric p); [|discriminate].
  destruct (PyStr.within_digit_limit p); [|discriminate]. simpl.
  destruct ((_ <? 1) || (_ >? 65535)) eqn:R; [discriminate|].
  apply range_test in R. intros H. injection H as <- <- <-. auto.
Qed.

(** A returned port was converted, so its text is within the limit. *)
Lemma port_step_ok_limit (user : option string) (host p : string)
    (t : target) :
  port_step user host p = inr t -> PyStr.within_digit_limit p = true.
Proof.
  unfold port_step. destruct (PyStr.isdigit p); simpl; [|discriminate].
  rewrite int_of_digits_numeric.
  destruct (PyStr.within_digit_limit p); [reflexivity|].
  rewrite andb_false_r. discriminate.
Qed.

Lemma port_step_error (user : option string) (host p : string) (e : ValueError) :
  port_step user host p = inl e ->
  TargetSpec.numeric p = false
  \/ PyStr.within_digit_limit p = false
  \/ ~ TargetSpec.valid_port (TargetSpec.decimal_value p).
Proof.
  unfold port_step. destruct (PyStr.isdigit p) eqn:D; simpl.
  - rewrite int_of_digits_numeric. destruct (TargetSpec.numeric p); [|auto].
    destruct (PyStr.within_digit_limit p); [|auto]. simpl.
    destruct ((_ <? 1) || (_ >? 65535)) eqn:R; [|discriminate].
    intros _. right. right. intros V. apply range_test in V. congruence.
  - intros _. left. destruct (TargetSpec.numeric p) eqn:N; [|reflexivity].
    apply numeric_isdigit in N. congruence.
Qed.

(** Outside the range, or not numeric, the port text is refused whatever
    its length. *)
Lemma port_step_bad (user : option string) (host p : string) :
  TargetSpec.numeric p = false
  \/ ~ TargetSpec.valid_port (TargetSpec.decimal_value p) ->
  exists e, port_step user host p = inl e.
Proof.
  intros B.
  destruct (port_step user host p) as [e|[[u h] port]] eqn:S;
    [exists e; reflexivity|].
  apply port_step_ok in S as (_ & _ & N & _ & V).
  destruct B as [B|B]; [congruence | contradiction].
Qed.

Lemma parse_connection_target_unfold (arg : string) :
  parse_connection_target arg =
  let user := match PyStr.split1 "@" arg with
              | Some (u, _) => PyStr.or_none u
              | None => None
              end in
  match PyStr.rsplit1 ":" (TargetSpec.host_part arg) with
  | Some (host, port_str) => port_step user host port_str
  | None => inr (user, PyStr.or_none (TargetSpec.host_part arg), None)
  end.
Proof.
  unfold parse_connection_target, TargetSpec.host_part, port_step.
  destruct (PyStr.split1 "@" arg) as [[u hp]|]; simpl;
    destruct (PyStr.rsplit1 ":" _) as [[h p]|]; reflexivity.
Qed.

Lemma user_not_empty (arg : string) :
  match PyStr.split1 "@" arg with
  | Some (u, _) => PyStr.or_none u
  | None => None
  end <> Some EmptyString.
Proof.
  destruct (PyStr.split1 "@" arg) as [[u hp]|];
    [apply or_none_not_empty | discriminate].
Qed.

(** A returned triple has a port in range and no empty name. *)
Lemma parse_connection_target_ok (arg : string) (user host : option string)
    (port : option Z) :
  parse_connection_target arg = inr (user, host, port) ->
  (forall n, port = Some n -> TargetSpec.valid_port n)
  /\ user <> Some EmptyString /\ host <> Some EmptyString.
Proof.
  rewrite parse_connection_target_unfold. cbv zeta.
  pose proof (user_not_empty arg) as Hu.
  destruct (PyStr.rsplit1 ":" (TargetSpec.host_part arg)) as [[h p]|].
  - intros H. apply port_step_ok in H as (-> & -> & _ & -> & V).
    split; [|split; [exact Hu | apply or_none_not_empty]].
    intros n E. injection E as <-. exact V.
  - intros H. injection H as <- <- <-.
    split; [discriminate | split; [exact Hu | apply or_none_not_empty]].
Qed.

(** [ValueError] is raised on exactly the arguments whose port text is
    refused. *)
Lemma parse_connection_target_raises (arg : string) :
  (exists e, parse_connection_target arg = inl e) <-> TargetSpec.refused_port arg.
Proof.
  rewrite parse_connection_target_unfold.
  unfold TargetSpec.refused_port, TargetSpec.port_text. cbv zeta.
  destruct (PyStr.rsplit1 ":" (TargetSpec.host_part arg)) as [[h p]|].
  - split.
    + intros [e H]. exists p. split; [reflexivity|].
      exact (port_step_error _ _ _ _ H).
    + intros [p' [E B]]. injection E as <-.
      destruct (port_step _ h p) as [e|t] eqn:S; [exists e; reflexivity|].
      destruct B as [B|[B|B]].
      * destruct (port_step_bad (match PyStr.split1 "@" arg with
                                  | Some (u, _) => PyStr.or_none u
                                  | None => None
                                  end) h p (or_introl B)) as [e E].
        congruence.
      * apply port_step_ok_limit in S. congruence.
      * destruct (port_step_bad (match PyStr.split1 "@" arg with
                                  | Some (u, _) => PyStr.or_none u
                                  | None => None
                                  end) h p (or_intror B)) as [e E].
        congruence.
  - split; [intros [e H]; discriminate | intros [p [E _]]; discriminate].
Qed.

(** A bad port, in the words of the claim, is always refused. *)
Lemma bad_port_raises (arg : string) :
  TargetSpec.bad_port arg -> exists e, parse_connection_target arg = inl e.
Proof.
  intros (p & E & B). apply parse_connection_target_raises.
  exists p. split; [exact E|]. destruct B as [B|B]; auto.
Qed.



(** ** Rules for [hoare] *)

Lemma hoare_ret {A : Type} (a : A) (P : world -> Prop)
    (Q : exn + A -> world -> Prop) :
  (forall w, P w -> Q (inr a) w) -> hoare P (ret a) Q.
Proof. intros H w Pw. exact (H w Pw). Qed.

Lemma hoare_bind {A B : Type} (m : M A) (k : A -> M B) (P : world -> Prop)
    (R : A -> world -> Prop) (Q : exn + B -> world -> Prop) :
  hoare P m (on_result R Q) ->
  (forall a, hoare (R a) (k a) Q) ->
  hoare P (bind m k) Q.
Proof.
  intros Hm Hk w Pw. specialize (Hm w Pw). unfold bind.
  destruct (m w) as [[e|a] w1]; simpl in *; [exact Hm | exact (Hk a w1 Hm)].
Qed.

Lemma hoare_pure {A : Type} (phi : Prop) (P : world -> Prop) (m : M A)
    (Q : exn + A -> world -> Prop) :
  (phi -> hoare P m Q) -> hoare (fun w => P w /\ phi) m Q.
Proof. intros H w [Pw Hphi]. exact (H Hphi w Pw). Qed.

Lemma hoare_print {B : Type} (I : world -> Prop) (m : message)
    (Q : exn + B -> world -> Prop) :
  quiet I -> hoare I (print m) (on_result (fun _ w => I w) Q).
Proof.
  intros HI [f wr st t] Iw. simpl. exact (HI f wr st st t (Printed m) eq_refl Iw).
Qed.

Lemma hoare_when_print {B : Type} (I : world -> Prop) (b : bool) (m : message)
    (Q : exn + B -> world -> Prop) :
  quiet I -> hoare I (when b (print m)) (on_result (fun _ w => I w) Q).
Proof.
  intros HI. destruct b; simpl; [apply hoare_print; exact HI|].
  intros w Iw. exact Iw.
Qed.

Lemma hoare_input {B : Type} (I : world -> Prop) (p : prompt)
    (Q : exn + B -> world -> Prop) :
  quiet I -> (forall r w, I w -> Q r w) ->
  hoare I (input p) (on_result (fun _ w => I w) Q).
Proof.
  intros HI HQ [f wr st t] Iw. unfold input. simpl.
  destruct st as [|line rest]; simpl.
  - apply HQ. exact (HI f wr [] [] t (Asked p) eq_refl Iw).
  - exact (HI f wr (line :: rest) rest t (Asked p) eq_refl Iw).
Qed.

Section MainRules.

Variable client : Config -> option string -> client_call -> Z * option string.
Variable EXIT_COMPLETED : Z.

Lemma hoare_or_ask (I : world -> Prop) (Q : exn + Z -> world -> Prop)
    (resolved : option string) (p : prompt) (required : message)
    (k : string -> M Z) :
  quiet I -> (forall r w, I w -> Q r w) ->
  (forall name, settled resolved name -> hoare I (k name) Q) ->
  hoare I (or_ask resolved p required k) Q.
Proof.
  intros HI HQ Hk. unfold or_ask. destruct (truthy_str resolved) eqn:T.
  - destruct resolved as [name|]; [|discriminate].
    apply Hk. split; [exact T | reflexivity].
  - eapply hoare_bind; [apply hoare_input; assumption|].
    intros line. cbv beta. destruct (PyStr.nonempty (PyStr.strip line)) eqn:N.
    + apply Hk. split; [exact N | congruence].
    + eapply hoare_bind; [apply hoare_print; exact HI|].
      intros ?. apply hoare_ret. intros w Iw. apply HQ, Iw.
Qed.

(** The first half of [main] keeps every quiet property, and hands the
    second half a host and a user that are settled. *)
Lemma main_rule (I : world -> Prop) (Q : exn + Z -> world -> Prop)
    (args : list cli_opt) (f : file) :
  quiet I -> (forall r w, I w -> Q r w) ->
  (forall tu th tp cmd host user,
      split_positionals (arg_positional (parse_args args))
      = inr ((tu, th, tp), cmd) ->
      settled (resolve_name "host" th (arg_host (parse_args args)) (saved_of f)) host ->
      settled (resolve_name "user" tu (arg_user (parse_args args)) (saved_of f)) user ->
      hoare I (run_command client EXIT_COMPLETED (parse_args args) (saved_of f)
                           tp cmd host user) Q) ->
  hoare (fun w => I w /\ config_file w = f) (main client EXIT_COMPLETED args) Q.
Proof.
  intros HI HQ Hrun. unfold main.
  apply hoare_bind with (R := fun saved w => I w /\ saved = saved_of f).
  { intros w [Iw Hf]. simpl. split; [exact Iw | rewrite Hf; reflexivity]. }
  intros saved. apply hoare_pure. intros ->. cbv zeta.
  destruct (split_positionals (arg_positional (parse_args args)))
    as [e|[[[tu th] tp] cmd]] eqn:S.
  - eapply hoare_bind; [apply hoare_print; exact HI|].
    intros ?. apply hoare_ret. intros w Iw. apply HQ, Iw.
  - eapply hoare_bind; [apply hoare_when_print; exact HI|]. intros ?.
    eapply hoare_bind; [apply hoare_when_print; exact HI|]. intros ?.
    eapply hoare_bind; [apply hoare_when_print; exact HI|]. intros ?.
    apply hoare_or_ask; [exact HI | exact HQ|]. intros host Hh.
    apply hoare_or_ask; [exact HI | exact HQ|]. intros user Hu.
    exact (Hrun tu th tp cmd host user eq_refl Hh Hu).
Qed.

(** *** The client calls of [main] *)

Lemma calls_satisfy_quiet (good : Config -> option string -> client_call -> Prop) :
  quiet (fun w => calls_satisfy good (trace w)).
Proof.
  intros f wr st st' t e He H cfg ls c Hin. simpl in *.
  apply in_app_or in Hin as [Hin|[E|[]]]; [exact (H _ _ _ Hin)|].
  subst e. discriminate.
Qed.

Lemma save_config_trace (host user : string) (ls : option string) (auto : bool)
    (port : pyint) (w : world) :
  trace (snd (save_config host user ls auto port w)) = trace w
  /\ fst (save_config host user ls auto port w) = inr tt.
Proof. unfold save_config. destruct (config_writable w); split; reflexivity. Qed.

Lemma hoare_save_calls {B : Type}
    (good : Config -> option string -> client_call -> Prop)
    (host user : string) (ls : option string) (auto : bool) (port : pyint)
    (Q : exn + B -> world -> Prop) :
  hoare (fun w => calls_satisfy good (trace w))
        (save_config host user ls auto port)
        (on_result (fun _ w => calls_satisfy good (trace w)) Q).
Proof.
  intros w H. destruct (save_config_trace host user ls auto port w) as [Ht Hr].
  rewrite Hr. simpl. rewrite Ht. exact H.
Qed.

Lemma hoare_call_client {B : Type}
    (good : Config -> option string -> client_call -> Prop)
    (cfg : Config) (ls : option string) (c : client_call)
    (Q : exn + B -> world -> Prop) :
  good cfg ls c ->
  hoare (fun w => calls_satisfy good (trace w)) (call_client client cfg ls c)
        (on_result (fun _ w => calls_satisfy good (trace w)) Q).
Proof.
  intros Hg w H. unfold call_client, bind, log, ret. simpl.
  intros cfg' ls' c' Hin.
  apply in_app_or in Hin as [Hin|[E|[]]]; [exact (H _ _ _ Hin)|].
  injection E as <- <- <-. exact Hg.
Qed.

Lemma hoare_run_and_save
    (good : Config -> option string -> client_call -> Prop)
    (cfg : Config) (ls : option string) (host user : string) (auto : bool)
    (port : pyint) (c : client_call) :
  good cfg ls c ->
  hoare (fun w => calls_satisfy good (trace w))
        (run_and_save client cfg ls host user auto port c)
        (fun _ w => calls_satisfy good (trace w)).
Proof.
  intros Hg. unfold run_and_save.
  eapply hoare_bind; [apply hoare_call_client; exact Hg|].
  intros [result current]. cbv beta iota.
  eapply hoare_bind.
  - unfold when. destruct (truthy_str current).
    + apply hoare_save_calls.
    + apply hoare_ret. intros w H. exact H.
  - intros ?. apply hoare_ret. intros w H. exact H.
Qed.

Lemma run_command_calls
    (good : Config -> option string -> client_call -> Prop)
    (ns : Namespace) (saved : dict) (tp : option Z) (cmd : list string)
    (host user : string) :
  (forall c, call_from ns saved c ->
             good (mkConfig host user (resolve_port tp (arg_port ns) saved))
                  (str_or_none (dict_get "last_server" saved)) c) ->
  hoare (fun w => calls_satisfy good (trace w))
        (run_command client EXIT_COMPLETED ns saved tp cmd host user)
        (fun _ w => calls_satisfy good (trace w)).
Proof.
  intros Hg. unfold run_command. cbv zeta.
  eapply hoare_bind; [apply hoare_save_calls|]. intros ?.
  destruct (arg_clear ns).
  { eapply hoare_bind; [apply hoare_call_client, Hg; exact I|].
    intros ?. apply hoare_ret. intros w H. exact H. }
  destruct (arg_list ns); [apply hoare_run_and_save, Hg; exact I|].
  destruct (arg_cleanup ns); [apply hoare_run_and_save, Hg; exact I|].
  destruct (arg_attach ns) as [att|]; [apply hoare_run_and_save, Hg; exact I|].
  destruct (arg_kill ns) as [k|]; [apply hoare_run_and_save, Hg; reflexivity|].
  eapply hoare_bind with (R := fun _ w => calls_satisfy good (trace w)).
  - destruct (PyStr.nonempty (PyStr.join_spaces cmd)).
    + apply hoare_ret. intros w H. exact H.
    + apply hoare_bind with (R := fun _ w => calls_satisfy good (trace w)).
      * apply (hoare_input (fun w => calls_satisfy good (trace w)));
          [apply calls_satisfy_quiet|]. intros [e|x] w H; exact H.
      * intros line. apply hoare_ret. intros w H. exact H.
  - intros text. apply hoare_run_and_save, Hg. simpl. repeat split.
Qed.

(** Every client call in the trace of an invocation was prepared by
    [main] from the command line and the saved settings. *)
Lemma main_calls (args : list cli_opt) (f : file) (writable : bool)
    (answers : list string) :
  calls_satisfy (call_of_main args f)
    (trace (snd (run_main client EXIT_COMPLETED args f writable answers))).
Proof.
  unfold run_main.
  refine (main_rule (fun w => calls_satisfy (call_of_main args f) (trace w))
                    (fun _ w => calls_satisfy (call_of_main args f) (trace w))
                    args f _ _ _ (mkWorld f writable answers []) _).
  - apply calls_satisfy_quiet.
  - intros ? w H. exact H.
  - intros tu th tp cmd host user S Hh Hu.
    apply run_command_calls. intros c Hc.
    exists tu, th, tp, cmd. simpl. auto 10.
  - simpl. split; [|reflexivity]. intros cfg ls c [].
Qed.

End MainRules.

(** ** What [main] passes to [execute] *)

Lemma fold_last_value {A : Type} (f : cli_opt -> option A) (opts : list cli_opt)
    (acc : option A) :
  (forall o, In o opts -> f o = None) ->
  fold_left (fun acc o => match f o with Some v => Some v | None => acc end)
            opts acc = acc.
Proof.
  revert acc. induction opts as [|o opts IH]; intros acc H; simpl; [reflexivity|].
  rewrite (H o (or_introl eq_refl)). apply IH.
  intros o' Hin. apply H. right. exact Hin.
Qed.

(** An option that does not occur leaves its default. *)
Lemma last_value_absent {A : Type} (f : cli_opt -> option A) (opts : list cli_opt) :
  (forall o, In o opts -> f o = None) -> last_value f opts = None.
Proof. apply fold_last_value. Qed.

Section MainClaims.

Variable client : Config -> option string -> client_call -> Z * option string.
Variable EXIT_COMPLETED : Z.

(** C7.  When the command line has no timeout option, [execute] is
    called with [timeout=None]; and when it has no idle-timeout option
    either, the idle timeout passed is the default 3600, which is not 0. *)
Theorem omitted_timeout_is_unlimited (args : list cli_opt) (f : file)
    (writable : bool) (answers : list string) (cfg : Config)
    (ls : option string) (cmd : string) (t : option Z) (i : Z)
    (n fo a : bool) :
  (forall s, ~ In (OptTimeout s) args) ->
  In (Called cfg ls (Execute cmd t i n fo a))
     (trace (snd (run_main client EXIT_COMPLETED args f writable answers))) ->
  t = None
  /\ ((forall s, ~ In (OptIdleTimeout s) args) -> i = 3600 /\ i <> 0).
Proof.
  intros Hno Hin. apply main_calls in Hin.
  destruct Hin as (tu & th & tp & words & _ & _ & _ & _ & _ & Hc).
  unfold call_from in Hc. destruct Hc as (Ht & Hi & _). split.
  - rewrite Ht. apply last_value_absent.
    intros o Ho. destruct o; try reflexivity. destruct (Hno _ Ho).
  - intros Hidle. rewrite Hi. unfold parse_args, arg_idle_timeout.
    rewrite last_value_absent; [lia|].
    intros o Ho. destruct o; try reflexivity. destruct (Hidle _ Ho).
Qed.

(** C2, as the code has it.  When the command line has neither [--auto]
    nor [--no-auto] and the settings file holds no [auto_new_session],
    [execute] is called with [auto=True], with or without [--force].
    [auto=False] is passed only after [--no-auto], or when no auto
    option is given and the saved [auto_new_session] is [false]. *)
Theorem auto_is_enabled_by_default (args : list cli_opt) (f : file)
    (writable : bool) (answers : list string) (cfg : Config)
    (ls : option string) (cmd : string) (t : option Z) (i : Z)
    (n fo a : bool) :
  In (Called cfg ls (Execute cmd t i n fo a))
     (trace (snd (run_main client EXIT_COMPLETED args f writable answers))) ->
  (~ In OptAuto args -> ~ In OptNoAuto args ->
   dict_get "auto_new_session" (saved_of f) = None -> a = true)
  /\ (a = false ->
      arg_auto (parse_args args) = Some false
      \/ (arg_auto (parse_args args) = None
          /\ dict_get "auto_new_session" (saved_of f) = Some (JBool false))).
Proof.
  intros Hin. apply main_calls in Hin.
  destruct Hin as (tu & th & tp & words & _ & _ & _ & _ & _ & Hc).
  unfold call_from in Hc. destruct Hc as (_ & _ & _ & _ & Ha). split.
  - intros H1 H2 Hs. rewrite Ha. unfold parse_args, arg_auto.
    rewrite last_value_absent.
    + unfold resolve_auto, dict_get_default. rewrite Hs. reflexivity.
    + intros o Ho. destruct o; try reflexivity; contradiction.
  - intros ->. unfold resolve_auto, dict_get_default in Ha.
    destruct (arg_auto (parse_args args)) as [[|]|];
      [discriminate Ha | left; reflexivity |].
    right. split; [reflexivity|].
    destruct (dict_get "auto_new_session" (saved_of f)) as [[| [|] | | | | |]|];
      try discriminate Ha.
    reflexivity.
Qed.

(** *** The connection target *)

Lemma looks_like_target_shaped (first : string) :
  looks_like_target first = true <-> target_shaped first.
Proof.
  unfold looks_like_target, target_shaped.
  rewrite orb_true_iff, !andb_true_iff, !negb_true_iff. tauto.
Qed.

Lemma cons_not_self {A : Type} (x : A) (l : list A) : x :: l <> l.
Proof.
  intros H. apply (f_equal (@List.length A)) in H. simpl in H.
  revert H. apply Nat.neq_succ_diag_l.
Qed.

Lemma target_shaped_consumed (first : string) (rest : list string) :
  target_shaped first <-> consumed_as_target first rest.
Proof.
  rewrite <- looks_like_target_shaped. unfold consumed_as_target, split_positionals.
  destruct (looks_like_target first); split; try reflexivity; try discriminate.
  intros H. destruct (parse_connection_target first) as [e|t]; [discriminate|].
  injection H as _ H. destruct (cons_not_self _ _ H).
Qed.

Lemma split_positionals_ok (positionals : list string)
    (tu th : option string) (tp : option Z) (words : list string) :
  split_positionals positionals = inr ((tu, th, tp), words) ->
  (forall n, tp = Some n -> TargetSpec.valid_port n)
  /\ tu <> Some EmptyString /\ th <> Some EmptyString.
Proof.
  unfold split_positionals. destruct positionals as [|first rest].
  - intros H. injection H as <- <- <- _. repeat split; discriminate.
  - destruct (looks_like_target first).
    + destruct (parse_connection_target first) as [e|[[u h] p]] eqn:P;
        [discriminate|].
      intros H. injection H as <- <- <- _.
      exact (parse_connection_target_ok _ _ _ _ P).
    + intros H. injection H as <- <- <- _. repeat split; discriminate.
Qed.

Lemma truthy_some (s : string) :
  s <> EmptyString -> truthy_str (Some s) = true.
Proof. destruct s; [contradiction | reflexivity]. Qed.

Lemma settled_first (a b : option string) (s name : string) :
  a = Some s -> s <> EmptyString -> settled (or_str a b) name -> name = s.
Proof.
  intros -> Hs [_ H]. unfold or_str in H. rewrite (truthy_some s Hs) in H.
  specialize (H (truthy_some s Hs)). congruence.
Qed.

Lemma or_str_skip (a b : option string) :
  truthy_str a = false -> or_str a b = b.
Proof. unfold or_str. intros ->. reflexivity. Qed.

Lemma saved_port (saved : dict) (tp flag : option Z) :
  truthy_int (or_int tp flag) = false ->
  resolve_port tp flag saved
  = match dict_get_default "port" (JInt 22) saved with
    | JInt m => PyInt m
    | JBool b => PyBool b
    | _ => PyInt 22
    end.
Proof.
  unfold resolve_port. destruct (or_int tp flag) as [n|]; [|reflexivity].
  simpl. destruct (n =? 0); [reflexivity | discriminate].
Qed.

(** C10, as the code has it.  The first positional argument is consumed
    as a connection target exactly when it holds an '@', or does not
    start with '-' and holds a '.' but no '/' and no space; so
    [script.py] alone is taken as a host name.  For every client call
    [main] makes: the host, user and port of an accepted target win over
    the flags; a flag [-H] or [-U] with a non-empty value, and a flag
    [-p] with a non-zero value, win over the saved settings; without a
    usable flag a saved non-empty host or user string and a saved integer
    port are used, and the port is 22 when none is saved. *)
Theorem positional_target_precedence (args : list cli_opt) (f : file)
    (writable : bool) (answers : list string) (cfg : Config)
    (ls : option string) (c : client_call)
    (first : string) (rest : list string) :
  In (Called cfg ls c)
     (trace (snd (run_main client EXIT_COMPLETED args f writable answers))) ->
  (target_shaped first <-> consumed_as_target first rest)
  /\ split_positionals ["script.py"] = inr ((None, Some "script.py", None), [])
  /\ exists tu th tp words,
      split_positionals (arg_positional (parse_args args))
      = inr ((tu, th, tp), words)
      /\ (forall h, th = Some h -> hostname cfg = h)
      /\ (forall h, th = None -> arg_host (parse_args args) = Some h ->
                    h <> EmptyString -> hostname cfg = h)
      /\ (forall h, th = None -> truthy_str (arg_host (parse_args args)) = false ->
                    dict_get "host" (saved_of f) = Some (JStr h) ->
                    h <> EmptyString -> hostname cfg = h)
      /\ (forall u, tu = Some u -> username cfg = u)
      /\ (forall u, tu = None -> arg_user (parse_args args) = Some u ->
                    u <> EmptyString -> username cfg = u)
      /\ (forall u, tu = None -> truthy_str (arg_user (parse_args args)) = false ->
                    dict_get "user" (saved_of f) = Some (JStr u) ->
                    u <> EmptyString -> username cfg = u)
      /\ (forall p, tp = Some p -> port cfg = PyInt p)
      /\ (forall p, tp = None -> arg_port (parse_args args) = Some p ->
                    p <> 0 -> port cfg = PyInt p)
      /\ (forall p, tp = None -> truthy_int (arg_port (parse_args args)) = false ->
                    dict_get "port" (saved_of f) = Some (JInt p) ->
                    port cfg = PyInt p)
      /\ (tp = None -> truthy_int (arg_port (parse_args args)) = false ->
          dict_get "port" (saved_of f) = None -> port cfg = PyInt 22).
Proof.
  intros Hin. split; [apply target_shaped_consumed|]. split; [reflexivity|].
  apply main_calls in Hin.
  destruct Hin as (tu & th & tp & words & S & Hh & Hu & Hp & _ & _).
  destruct (split_positionals_ok _ _ _ _ _ S) as (Vp & Nu & Nh).
  exists tu, th, tp, words. split; [exact S|].
  unfold resolve_name in Hh, Hu.
  repeat split.
  - intros h E. eapply settled_first; [exact E | congruence | exact Hh].
  - intros h -> E Hne. rewrite or_str_skip in Hh by reflexivity.
    eapply settled_first; [exact E | exact Hne | exact Hh].
  - intros h -> T E Hne. rewrite !or_str_skip in Hh by (reflexivity || exact T).
    rewrite E in Hh. destruct Hh as [_ Hh]. simpl in Hh.
    specialize (Hh (truthy_some h Hne)). congruence.
  - intros u E. eapply settled_first; [exact E | congruence | exact Hu].
  - intros u -> E Hne. rewrite or_str_skip in Hu by reflexivity.
    eapply settled_first; [exact E | exact Hne | exact Hu].
  - intros u -> T E Hne. rewrite !or_str_skip in Hu by (reflexivity || exact T).
    rewrite E in Hu. destruct Hu as [_ Hu]. simpl in Hu.
    specialize (Hu (truthy_some u Hne)). congruence.
  - intros p ->. rewrite Hp. pose proof (Vp p eq_refl) as [V _].
    unfold resolve_port, or_int. simpl.
    destruct (p =? 0) eqn:Z0; [apply Z.eqb_eq in Z0; lia|].
    simpl. rewrite Z0. reflexivity.
  - intros p -> E Hne. rewrite Hp, E. unfold resolve_port, or_int. simpl.
    apply Z.eqb_neq in Hne. rewrite Hne. reflexivity.
  - intros p -> T E. rewrite Hp, saved_port by exact T.
    unfold dict_get_default. rewrite E. reflexivity.
  - intros -> T E. rewrite Hp, saved_port by exact T.
    unfold dict_get_default. rewrite E. reflexivity.
Qed.

(** *** The session name kept for the next run *)

Lemma before_call_quiet : quiet before_call.
Proof.
  intros f wr st st' t e He [Hw Hc]. split; [exact Hw|].
  exact (calls_satisfy_quiet _ f wr st st' t e He Hc).
Qed.

Lemma before_call_persisted (auto : bool) (w : world) :
  before_call w -> persisted client auto w.
Proof. intros [_ Hc] cfg ls c s Hin. destruct (Hc _ _ _ Hin). Qed.

Lemma save_config_before_call (host user : string) (ls : option string)
    (auto : bool) (port : pyint) :
  hoare before_call (save_config host user ls auto port)
        (on_result (fun _ w => before_call w)
                   (fun (_ : exn + Z) w => persisted client auto w)).
Proof.
  intros w [Hw Hc]. unfold save_config. rewrite Hw. simpl.
  split; [reflexivity | exact Hc].
Qed.

Lemma run_and_save_world (cfg : Config) (ls : option string)
    (host user : string) (auto : bool) (port : pyint) (c : client_call)
    (w : world) :
  let w1 := mkWorld (config_file w) (config_writable w) (stdin w)
                    (trace w ++ [Called cfg ls c]) in
  snd (run_and_save client cfg ls host user auto port c w)
  = if truthy_str (snd (client cfg ls c))
    then snd (save_config host user (snd (client cfg ls c)) auto port w1)
    else w1.
Proof.
  unfold run_and_save, call_client, bind, log, ret, when. simpl.
  destruct (client cfg ls c) as [result current]. simpl.
  destruct (truthy_str current); [|reflexivity].
  destruct (save_config _ _ _ _ _ _) as [[e|[]] w2]; reflexivity.
Qed.

(** A call followed by the conditional [save_config] leaves the reported
    name in the file. *)
Lemma run_and_save_persists (host user : string) (port : pyint)
    (ls : option string) (auto : bool) (c : client_call) :
  hoare before_call
        (run_and_save client (mkConfig host user port) ls host user auto port c)
        (fun _ w => persisted client auto w).
Proof.
  intros w [Hw Hc]. rewrite run_and_save_world. cbv zeta.
  intros cfg' ls' c' s Hin Hc' Hs Hne.
  assert (E : Called cfg' ls' c' = Called (mkConfig host user port) ls c).
  { destruct (truthy_str _); [unfold save_config in Hin; simpl in Hin;
                              rewrite Hw in Hin|]; simpl in Hin;
      (apply in_app_or in Hin as [Hin|[E|[]]];
       [destruct (Hc _ _ _ Hin) | symmetry; exact E]). }
  injection E as -> -> ->. rewrite Hs.
  rewrite (truthy_some s Hne). unfold save_config. simpl. rewrite Hw. simpl.
  destruct s; [contradiction | reflexivity].
Qed.

Lemma run_command_persists (ns : Namespace) (saved : dict) (tp : option Z)
    (cmd : list string) (host user : string) :
  hoare before_call
        (run_command client EXIT_COMPLETED ns saved tp cmd host user)
        (fun _ w => persisted client (resolve_auto (arg_auto ns) saved) w).
Proof.
  unfold run_command. cbv zeta.
  eapply hoare_bind; [apply save_config_before_call|]. intros ?.
  destruct (arg_clear ns).
  { intros w [Hw Hc]. unfold call_client, bind, log, ret. simpl.
    intros cfg ls c s Hin Hne. apply in_app_or in Hin as [Hin|[E|[]]].
    - destruct (Hc _ _ _ Hin).
    - injection E as _ _ <-. contradiction. }
  destruct (arg_list ns); [apply run_and_save_persists|].
  destruct (arg_cleanup ns); [apply run_and_save_persists|].
  destruct (arg_attach ns) as [att|]; [apply run_and_save_persists|].
  destruct (arg_kill ns) as [k|]; [apply run_and_save_persists|].
  apply hoare_bind with (R := fun _ w => before_call w).
  - destruct (PyStr.nonempty (PyStr.join_spaces cmd)).
    + apply hoare_ret. intros w H. exact H.
    + apply hoare_bind with (R := fun _ w => before_call w).
      * apply (hoare_input before_call); [apply before_call_quiet|].
        intros [e|x] w H; [apply before_call_persisted|]; exact H.
      * intros line. apply hoare_ret. intros w H. exact H.
  - intros text. apply run_and_save_persists.
Qed.

(** C8, as the code has it.  After [execute], [attach], [kill], [list]
    or [cleanup], whatever the call returned, when the client reports a
    non-empty [current_server] and the settings file can be written,
    the file holds exactly that name as [last_server]; the other entries
    are the host, user and port the client was built with and the
    caller's [auto] setting. *)
Theorem current_server_is_persisted (args : list cli_opt) (f : file)
    (answers : list string) (cfg : Config) (ls : option string)
    (c : client_call) (s : string) :
  In (Called cfg ls c)
     (trace (snd (run_main client EXIT_COMPLETED args f true answers))) ->
  c <> ClearCredentials ->
  snd (client cfg ls c) = Some s ->
  s <> EmptyString ->
  config_file (snd (run_main client EXIT_COMPLETED args f true answers))
  = Content (settings cfg (resolve_auto (arg_auto (parse_args args)) (saved_of f)) s)
  /\ dict_get "last_server"
       (saved_of (config_file
                    (snd (run_main client EXIT_COMPLETED args f true answers))))
     = Some (JStr s).
Proof.
  intros Hin Hc Hs Hne.
  assert (P : persisted client (resolve_auto (arg_auto (parse_args args)) (saved_of f))
                (snd (run_main client EXIT_COMPLETED args f true answers))).
  { unfold run_main.
    refine (main_rule client EXIT_COMPLETED before_call
              (fun _ w => persisted client _ w)
              args f _ _ _ (mkWorld f true answers []) _).
    - apply before_call_quiet.
    - intros ? w H. apply before_call_persisted, H.
    - intros tu th tp cmd host user _ _ _. apply run_command_persists.
    - simpl. split; [|reflexivity]. split; [reflexivity|].
      intros cfg' ls' c' []. }
  rewrite (P cfg ls c s Hin Hc Hs Hne). split; reflexivity.
Qed.

End MainClaims.

(** ** Concrete runs of [main] *)

Example parse_user_host_port :
  parse_connection_target "bob@example.org:2222"
  = inr (Some "bob", Some "example.org", Some 2222).
Proof. reflexivity. Qed.

Example parse_empty_segments :
  parse_connection_target "@:22" = inr (None, None, Some 22).
Proof. reflexivity. Qed.

Example parse_bad_port :
  parse_connection_target "h.x:http" = inl (InvalidPort "http").
Proof. reflexivity. Qed.

Example parse_port_zero :
  parse_connection_target "h.x:0" = inl (PortOutOfRange 0).
Proof. reflexivity. Qed.

(** [tmux-ssh bob@example.org ls] with no settings file. *)
Example sample_run :
  trace (snd (run_main sample_client 0 sample_args Missing true []))
  = [Called (mkConfig "example.org" "bob" (PyInt 22)) None
            (Execute "ls" None 3600 false false true)].
Proof. reflexivity. Qed.

Lemma omitted_timeout_is_unlimited_witness :
  (None : option Z) = None
  /\ ((forall s, ~ In (OptIdleTimeout s) sample_args) -> 3600 = 3600 /\ 3600 <> 0).
Proof.
  apply (omitted_timeout_is_unlimited sample_client 0 sample_args Missing true []
           (mkConfig "example.org" "bob" (PyInt 22)) None "ls" None 3600
           false false true).
  - intros s [H|[H|[]]]; discriminate H.
  - simpl. left. reflexivity.
Defined.

(** C2 as stated fails: with no [--force], no [--auto], no [--no-auto]
    and no settings file, [execute] is called with [auto=True]. *)
Lemma auto_disabled_by_default_counterexample :
  ~ In OptForce sample_args /\ ~ In OptAuto sample_args
  /\ ~ In OptNoAuto sample_args
  /\ dict_get "auto_new_session" (saved_of Missing) = None
  /\ In (Called (mkConfig "example.org" "bob" (PyInt 22)) None
                (Execute "ls" None 3600 false false true))
        (trace (snd (run_main sample_client 0 sample_args Missing true [])))
  /\ ~ (forall cfg ls cmd t i n fo a,
           In (Called cfg ls (Execute cmd t i n fo a))
              (trace (snd (run_main sample_client 0 sample_args Missing true []))) ->
           a = false).
Proof.
  repeat split; try (intros [H|[H|[]]]; discriminate H).
  - simpl. left. reflexivity.
  - intros H.
    specialize (H (mkConfig "example.org" "bob" (PyInt 22)) None "ls" None 3600
                  false false true (or_introl eq_refl)).
    discriminate H.
Qed.

Lemma auto_is_enabled_by_default_witness :
  (~ In OptAuto sample_args -> ~ In OptNoAuto sample_args ->
   dict_get "auto_new_session" (saved_of Missing) = None -> true = true)
  /\ (true = false ->
      arg_auto (parse_args sample_args) = Some false
      \/ (arg_auto (parse_args sample_args) = None
          /\ dict_get "auto_new_session" (saved_of Missing) = Some (JBool false))).
Proof.
  apply (auto_is_enabled_by_default sample_client 0 sample_args Missing true []
           (mkConfig "example.org" "bob" (PyInt 22)) None "ls" None 3600
           false false true).
  simpl. left. reflexivity.
Defined.

(** C8 as stated fails: a client that reports the empty string, which is
    not [None], has nothing persisted; the file keeps the older name. *)
Lemma current_server_not_none_counterexample :
  let final := snd (run_main nameless_client 0 sample_args
                             (Content sample_settings) true []) in
  let cfg := mkConfig "example.org" "bob" (PyInt 2222) in
  let call := Execute "ls" None 3600 false false true in
  trace final = [Called cfg (Some "task_7") call]
  /\ snd (nameless_client cfg (Some "task_7") call) = Some EmptyString
  /\ dict_get "last_server" (saved_of (config_file final)) = Some (JStr "task_7")
  /\ dict_get "last_server" (saved_of (config_file final))
     <> Some (JStr EmptyString).
Proof. repeat split. discriminate. Qed.

Lemma current_server_is_persisted_witness :
  config_file (snd (run_main sample_client 0 sample_args
                             (Content sample_settings) true []))
  = Content (settings (mkConfig "example.org" "bob" (PyInt 2222))
                      (resolve_auto (arg_auto (parse_args sample_args))
                                    (saved_of (Content sample_settings)))
                      "remote_task")
  /\ dict_get "last_server"
       (saved_of (config_file
                    (snd (run_main sample_client 0 sample_args
                                   (Content sample_settings) true []))))
     = Some (JStr "remote_task").
Proof.
  apply (current_server_is_persisted sample_client 0 sample_args
           (Content sample_settings) []
           (mkConfig "example.org" "bob" (PyInt 2222)) (Some "task_7")
           (Execute "ls" None 3600 false false true) "remote_task").
  - simpl. left. reflexivity.
  - discriminate.
  - reflexivity.
  - discriminate.
Defined.

(** C10 as stated fails: [-p 0] is given, the target names no port, and
    the saved port 2222 is used, not the flag. *)
Lemma port_flag_precedence_counterexample :
  let final := snd (run_main sample_client 0 port_zero_args
                             (Content sample_settings) true []) in
  arg_port (parse_args port_zero_args) = Some 0
  /\ split_positionals (arg_positional (parse_args port_zero_args))
     = inr ((Some "bob", Some "example.org", None), ["ls"])
  /\ dict_get "port" sample_settings = Some (JInt 2222)
  /\ trace final
     = [Called (mkConfig "example.org" "bob" (PyInt 2222)) (Some "task_7")
               (Execute "ls" None 3600 false false true)]
  /\ ~ (forall cfg ls c, In (Called cfg ls c) (trace final) ->
                         port cfg = PyInt 0).
Proof.
  repeat split.
  intros H.
  specialize (H (mkConfig "example.org" "bob" (PyInt 2222)) (Some "task_7")
                (Execute "ls" None 3600 false false true) (or_introl eq_refl)).
  discriminate H.
Qed.

Lemma positional_target_precedence_witness :
  In (Called (mkConfig "example.org" "bob" (PyInt 2222)) (Some "task_7")
             (Execute "ls" None 3600 false false true))
     (trace (snd (run_main sample_client 0 sample_args
                           (Content sample_settings) true [])))
  /\ (target_shaped "script.py" <-> consumed_as_target "script.py" []).
Proof.
  assert (H : In (Called (mkConfig "example.org" "bob" (PyInt 2222))
                         (Some "task_7")
                         (Execute "ls" None 3600 false false true))
                 (trace (snd (run_main sample_client 0 sample_args
                                       (Content sample_settings) true [])))).
  { simpl. left. reflexivity. }
  split; [exact H|].
  exact (proj1 (positional_target_precedence sample_client 0 sample_args
                  (Content sample_settings) true []
                  (mkConfig "example.org" "bob" (PyInt 2222)) (Some "task_7")
                  (Execute "ls" None 3600 false false true) "script.py" [] H)).
Defined.

(** ** The engine *)

Import Engine.

(** C5.  The exit statuses of [Completed], [Error], [Blocked] and
    [StillRunning] are pairwise distinct, and a script can map an exit
    status back to the one status that produced it. *)
Theorem exit_statuses_are_distinct :
  exit_code Completed <> exit_code Error
  /\ exit_code Completed <> exit_code Blocked
  /\ exit_code Completed <> exit_code StillRunning
  /\ exit_code Error <> exit_code Blocked
  /\ exit_code Error <> exit_code StillRunning
  /\ exit_code Blocked <> exit_code StillRunning
  /\ (forall s, status_of_exit_code (exit_code s) = Some s)
  /\ (forall s s', exit_code s = exit_code s' -> s = s').
Proof.
  repeat split; try discriminate.
  - intros []; reflexivity.
  - intros [] []; simpl; intros H; try reflexivity; discriminate H.
Qed.

(** *** Round trips and the store *)

Lemma read_only_apply (st : list Session) (c : RemoteCmd) :
  read_only c = true -> apply_cmd st c = st.
Proof. destruct c; simpl; intros H; try reflexivity; discriminate H. Qed.

Lemma read_only_apply_all (cs : list RemoteCmd) (st : list Session) :
  forallb read_only cs = true -> apply_all st cs = st.
Proof.
  unfold apply_all. induction cs as [|c cs IH]; simpl; [reflexivity|].
  intros H. apply andb_true_iff in H as [Hc Hcs].
  rewrite (read_only_apply st c Hc). exact (IH Hcs).
Qed.

Lemma read_only_not_kill (cs : list RemoteCmd) (c : RemoteCmd) :
  forallb read_only cs = true -> In c cs -> is_kill c = false.
Proof.
  intros H Hin. rewrite forallb_forall in H. specialize (H c Hin).
  destruct c; simpl in *; try reflexivity; discriminate H.
Qed.

(** *** C1: the Blocked branch of [execute] *)

(** C1.  When the Registry reports that the target session S is
    running, [execute] with [force=false] and [auto=false] returns
    [Blocked]; its only round trip is the conflict check, the store is
    unchanged, and the live process of S is still there. *)
Theorem blocked_leaves_session_untouched (r : Remote) (S : string) (now : Z)
    (suffix cmd : string) (targetName : option string) (o : Options)
    (script : list PollEvent) :
  Registry.isRunning r S = inr true ->
  resolve_target targetName (newSession o) suffix = S ->
  force o = false ->
  auto o = false ->
  let res := execute r now suffix cmd targetName o script in
  (exists out, outcome res = Some (Done out) /\ status out = Blocked)
  /\ issued res = [QueryRunning S]
  /\ apply_all (sessions r) (issued res) = sessions r
  /\ (forall s, In s (sessions r) -> name s = S -> process s = Live ->
                In s (apply_all (sessions r) (issued res)))
  /\ Registry.isRunning
       (mkRemote (apply_all (sessions r) (issued res)) (reachable r)) S
     = inr true.
Proof.
  intros Hrun Ht Hf Ha. unfold execute. rewrite Ht, Hrun, Hf, Ha. simpl.
  split; [exists (mkOutcome Blocked EmptyString); split; reflexivity|].
  split; [reflexivity|]. split; [reflexivity|]. split; [auto|].
  destruct r as [ss up]. exact Hrun.
Qed.

Lemma blocked_leaves_session_untouched_witness :
  let res := execute sample_remote 40 "9" "ls" (Some "task_2")
                     (mkOptions None 3600 false false false) sample_script in
  (exists out, outcome res = Some (Done out) /\ status out = Blocked)
  /\ issued res = [QueryRunning "task_2"]
  /\ apply_all (sessions sample_remote) (issued res) = sessions sample_remote
  /\ (forall s, In s (sessions sample_remote) -> name s = "task_2" ->
                process s = Live ->
                In s (apply_all (sessions sample_remote) (issued res)))
  /\ Registry.isRunning
       (mkRemote (apply_all (sessions sample_remote) (issued res))
                 (reachable sample_remote)) "task_2"
     = inr true.
Proof.
  apply (blocked_leaves_session_untouched sample_remote "task_2" 40 "9" "ls"
           (Some "task_2") (mkOptions None 3600 false false false)
           sample_script); reflexivity.
Defined.

(** *** The poll loop *)

Lemma poll_read_only (session : string) (timeout : option Z) (idleTimeout start : Z)
    (script : list PollEvent) (captured : string) (idleSince : Z) :
  forallb read_only
          (polls (poll session timeout idleTimeout start captured idleSince script))
  = true.
Proof.
  revert captured idleSince.
  induction script as [|ev script IH]; intros captured idleSince; simpl;
    [reflexivity|].
  destruct ev as [now out exited| |]; simpl; try reflexivity.
  destruct exited; [reflexivity|].
  destruct (idleTimeout <=? _); [reflexivity|].
  destruct (elapsed timeout start now); [reflexivity|].
  simpl. apply IH.
Qed.

(** A script that leaves the loop polling can be continued: the loop
    goes on from the output and the idle clock it has reached. *)
Lemma poll_app (session : string) (timeout : option Z) (idleTimeout start : Z)
    (pre more : list PollEvent) (captured : string) (idleSince : Z) :
  result (poll session timeout idleTimeout start captured idleSince pre) = None ->
  poll session timeout idleTimeout start captured idleSince (pre ++ more)
  = let r1 := poll session timeout idleTimeout start captured idleSince pre in
    let r2 := poll session timeout idleTimeout start
                   (captured_after captured pre)
                   (idle_since_after captured idleSince pre) more in
    mkStream (result r2) (emitted r1 ++ emitted r2) (polls r1 ++ polls r2).
Proof.
  revert captured idleSince.
  induction pre as [|ev pre IH]; intros captured idleSince; simpl.
  - intros _. destruct (poll _ _ _ _ _ _ more); reflexivity.
  - destruct ev as [now out exited| |]; simpl; try discriminate.
    destruct exited; [discriminate|].
    destruct (idleTimeout <=? _); [discriminate|].
    destruct (elapsed timeout start now); [discriminate|].
    simpl. intros H. rewrite (IH _ _ H). simpl.
    rewrite <- !app_assoc. reflexivity.
Qed.

Lemma poll_none_quiet (session : string) (timeout : option Z)
    (idleTimeout start : Z) (pre : list PollEvent) (captured : string)
    (idleSince : Z) :
  result (poll session timeout idleTimeout start captured idleSince pre) = None ->
  forall ev, In ev pre -> exists now out, ev = Observed now out false.
Proof.
  revert captured idleSince.
  induction pre as [|e pre IH]; intros captured idleSince; simpl; [intros _ ev []|].
  destruct e as [now out exited| |]; simpl; try discriminate.
  destruct exited; [discriminate|].
  destruct (idleTimeout <=? _); [discriminate|].
  destruct (elapsed timeout start now); [discriminate|].
  simpl. intros H ev [<-|Hin]; [exists now, out; reflexivity|].
  exact (IH _ _ H ev Hin).
Qed.

(** C3.  When the interrupt arrives while the loop is polling, the
    stream ends with [Interrupted], not with [Error]; every round trip
    it made is read-only, none is a kill, and the store is as it was. *)
Theorem interrupt_leaves_session_untouched (session : string)
    (timeout : option Z) (idleTimeout start : Z)
    (pre rest : list PollEvent) (st : list Session) :
  result (stream session timeout idleTimeout start pre) = None ->
  let r := stream session timeout idleTimeout start (pre ++ Interrupt :: rest) in
  result r = Some (Interrupted (captured_after EmptyString pre))
  /\ (forall out, result r <> Some (Done (mkOutcome Error out)))
  /\ (forall c, In c (polls r) -> is_kill c = false)
  /\ forallb read_only (polls r) = true
  /\ apply_all st (polls r) = st.
Proof.
  intros H. cbv zeta.
  assert (R : result (stream session timeout idleTimeout start
                             (pre ++ Interrupt :: rest))
              = Some (Interrupted (captured_after EmptyString pre))).
  { unfold stream in *. rewrite (poll_app _ _ _ _ _ _ _ _ H). reflexivity. }
  pose proof (poll_read_only session timeout idleTimeout start
                (pre ++ Interrupt :: rest) EmptyString start) as RO.
  fold (stream session timeout idleTimeout start (pre ++ Interrupt :: rest)) in RO.
  split; [exact R|]. split; [rewrite R; discriminate|].
  split; [intros c; apply read_only_not_kill, RO|].
  split; [exact RO | apply read_only_apply_all, RO].
Qed.

Lemma interrupt_leaves_session_untouched_witness :
  let r := stream "task_2" None 3600 0 (sample_script ++ Interrupt :: []) in
  result r = Some (Interrupted "hello")
  /\ (forall out, result r <> Some (Done (mkOutcome Error out)))
  /\ (forall c, In c (polls r) -> is_kill c = false)
  /\ forallb read_only (polls r) = true
  /\ apply_all (sessions sample_remote) (polls r) = sessions sample_remote.
Proof.
  apply (interrupt_leaves_session_untouched "task_2" None 3600 0 sample_script []
           (sessions sample_remote)).
  reflexivity.
Defined.

(** *** Output kept across a transport failure *)










(** *** Cleanup *)

Lemma in_apply_kills (ns : list string) (st : list Session) (s : Session) :
  In s (apply_all st (map KillSession ns)) <-> In s st /\ ~ In (name s) ns.
Proof.
  unfold apply_all. revert st. induction ns as [|n ns IH]; intros st; simpl.
  - tauto.
  - rewrite IH, filter_In. unfold named. rewrite negb_true_iff, String.eqb_neq.
    split.
    + intros [[Hin Hne] Hns]. split; [exact Hin|]. intros [E|Hn]; [|exact (Hns Hn)].
      apply Hne. symmetry. exact E.
    + intros [Hin Hno]. split; [split; [exact Hin|]|].
      * intros E. apply Hno. left. symmetry. exact E.
      * intros Hn. apply Hno. right. exact Hn.
Qed.

Lemma NoDup_map_injective {A B : Type} (f : A -> B) (l : list A) (x y : A) :
  NoDup (map f l) -> In x l -> In y l -> f x = f y -> x = y.
Proof.
  induction l as [|a l IH]; simpl; [intros _ []|].
  intros ND Hx Hy E. inversion ND as [|b l' Hnot ND']; subst.
  destruct Hx as [->|Hx], Hy as [->|Hy].
  - reflexivity.
  - destruct Hnot. rewrite E. apply in_map, Hy.
  - destruct Hnot. rewrite <- E. apply in_map, Hx.
  - exact (IH ND' Hx Hy E).
Qed.

(** A pool name is never the primary name. *)
Lemma pool_is_not_primary (n : string) :
  is_pool n = true -> is_primary n = false.
Proof.
  unfold is_primary. destruct (String.eqb_spec n primary_name) as [->|];
    [discriminate | reflexivity].
Qed.

Lemma reclaimable_iff (s : Session) :
  reclaimable s = true <->
  is_pool (name s) = true
  /\ (state s = SessionState.Idle \/ state s = SessionState.Completed).
Proof.
  unfold reclaimable. rewrite !andb_true_iff, negb_true_iff. split.
  - intros [[Hp _] Hs]. split; [exact Hp|].
    destruct (state s); auto; discriminate.
  - intros [Hp Hs]. split; [split; [exact Hp | apply pool_is_not_primary, Hp]|].
    destruct Hs as [-> | ->]; reflexivity.
Qed.

(** C6.  When the Registry lists the sessions (whose names are distinct),
    the sessions left after [cleanup] are exactly those that are not
    pool-class sessions in state [Idle] or [Completed]; and the session
    with the primary name is among them whatever its state. *)
Theorem cleanup_reclaims_idle_pool_sessions (r : Remote) (ss : list Session) :
  Registry.list r = inr ss ->
  NoDup (map name (sessions r)) ->
  let left := apply_all (sessions r) (lifecycle_issued (cleanup r)) in
  (forall s, In s left <->
             In s (sessions r)
             /\ ~ (is_pool (name s) = true
                   /\ (state s = SessionState.Idle
                       \/ state s = SessionState.Completed)))
  /\ (forall s, In s (sessions r) -> name s = primary_name -> In s left).
Proof.
  intros HL ND. cbv zeta. unfold cleanup. rewrite HL. simpl.
  unfold Registry.list in HL. destruct (reachable r); [|discriminate].
  injection HL as <-.
  assert (K : forall s, In s (sessions r) ->
                        (In (name s) (map name (filter reclaimable (sessions r)))
                         <-> reclaimable s = true)).
  { intros s Hin. split.
    - intros Hn. apply in_map_iff in Hn as [s' [E Hs']].
      apply filter_In in Hs' as [Hin' R].
      rewrite <- (NoDup_map_injective name _ s' s ND Hin' Hin E). exact R.
    - intros R. apply in_map. apply filter_In. split; assumption. }
  change (fold_left apply_cmd
            (map (fun s => KillSession (name s)) (filter reclaimable (sessions r)))
            (sessions r))
    with (apply_all (sessions r)
            (map (fun s => KillSession (name s)) (filter reclaimable (sessions r)))).
  rewrite <- (map_map name KillSession).
  split.
  - intros s. rewrite in_apply_kills. split.
    + intros [Hin Hno]. split; [exact Hin|].
      rewrite <- reclaimable_iff, <- (K s Hin). exact Hno.
    + intros [Hin Hno]. split; [exact Hin|].
      rewrite (K s Hin), reclaimable_iff. exact Hno.
  - intros s Hin Hname. apply in_apply_kills. split; [exact Hin|].
    rewrite (K s Hin), reclaimable_iff. intros [Hp _].
    rewrite Hname in Hp. discriminate Hp.
Qed.

Lemma cleanup_reclaims_idle_pool_sessions_witness :
  let left := apply_all (sessions sample_remote)
                        (lifecycle_issued (cleanup sample_remote)) in
  (forall s, In s left <->
             In s (sessions sample_remote)
             /\ ~ (is_pool (name s) = true
                   /\ (state s = SessionState.Idle
                       \/ state s = SessionState.Completed)))
  /\ (forall s, In s (sessions sample_remote) -> name s = primary_name ->
                In s left).
Proof.
  apply (cleanup_reclaims_idle_pool_sessions sample_remote
           (sessions sample_remote)).
  - reflexivity.
  - simpl. repeat constructor; simpl; intuition discriminate.
Defined.

(** On the sample host, cleanup keeps the idle primary session and the
    busy pool session, and removes the two pool sessions at rest. *)
Example cleanup_sample :
  map name (apply_all (sessions sample_remote)
                      (lifecycle_issued (cleanup sample_remote)))
  = ["remote_task"; "task_2"].
Proof. reflexivity. Qed.

(** * Further properties of [cli.py] *)

(** ** The settings file *)

(** What [save_config] leaves in a writable file. *)
Lemma save_config_file (host user : string) (ls : option string) (auto : bool)
    (port : pyint) (w : world) :
  config_writable w = true ->
  let w' := snd (save_config host user ls auto port w) in
  config_writable w' = true /\ stdin w' = stdin w /\ trace w' = trace w
  /\ exists d, config_file w' = Content d
     /\ dict_get "host" d = Some (JStr host)
     /\ dict_get "user" d = Some (JStr user)
     /\ dict_get "port" d = Some (json_of_pyint port)
     /\ dict_get "auto_new_session" d = Some (JBool auto)
     /\ last_server_entry d = (if truthy_str ls then ls else None).
Proof.
  intros Hw. unfold save_config. rewrite Hw. simpl.
  repeat split.
  destruct ls as [[|a s]|]; simpl; eexists; repeat split.
Qed.

(** ** [main], step by step *)

Lemma emit_nil (w : world) : emit w [] = w.
Proof. destruct w. unfold emit. simpl. rewrite app_nil_r. reflexivity. Qed.

Lemma emit_emit (w : world) (a b : list event) :
  emit (emit w a) b = emit w (a ++ b).
Proof. unfold emit. simpl. rewrite app_assoc. reflexivity. Qed.

Lemma no_calls_app (a b : list event) :
  no_calls a -> no_calls b -> no_calls (a ++ b).
Proof.
  intros Ha Hb cfg ls c Hin. apply in_app_or in Hin as [Hin|Hin];
    [exact (Ha _ _ _ Hin) | exact (Hb _ _ _ Hin)].
Qed.

Lemma no_calls_nil : no_calls [].
Proof. intros cfg ls c []. Qed.

Lemma no_calls_one (e : event) : is_call e = false -> no_calls [e].
Proof. intros He cfg ls c [E|[]]. subst e. discriminate He. Qed.

Lemma warnings_no_calls (ns : Namespace) (tu th : option string) (tp : option Z) :
  no_calls (warnings ns tu th tp).
Proof.
  unfold warnings. cbv zeta.
  repeat apply no_calls_app;
    match goal with
    | |- no_calls (if ?b then _ else _) =>
        destruct b; [apply no_calls_one; reflexivity | apply no_calls_nil]
    end.
Qed.

Lemma quiet_step_refl (w : world) : quiet_step w w.
Proof.
  split; [reflexivity|]. split; [reflexivity|]. split.
  - exists []. rewrite app_nil_r. split; [reflexivity | apply no_calls_nil].
  - exists []. reflexivity.
Qed.

Lemma quiet_step_trans (w1 w2 w3 : world) :
  quiet_step w1 w2 -> quiet_step w2 w3 -> quiet_step w1 w3.
Proof.
  intros (F1 & W1 & (es1 & T1 & N1) & (u1 & S1))
         (F2 & W2 & (es2 & T2 & N2) & (u2 & S2)).
  split; [congruence|]. split; [congruence|]. split.
  - exists (es1 ++ es2). rewrite T2, T1, app_assoc.
    split; [reflexivity | apply no_calls_app; assumption].
  - exists (u1 ++ u2). rewrite S1, S2, app_assoc. reflexivity.
Qed.

Lemma quiet_step_emit (w : world) (es : list event) :
  no_calls es -> quiet_step w (emit w es).
Proof.
  intros H. split; [reflexivity|]. split; [reflexivity|]. split.
  - exists es. split; [reflexivity | exact H].
  - exists []. reflexivity.
Qed.

Lemma quiet_step_answered (w : world) (p : prompt) (rest : list string) :
  (exists used, stdin w = used ++ rest) -> quiet_step w (answered w p rest).
Proof.
  intros H. split; [reflexivity|]. split; [reflexivity|]. split.
  - exists [Asked p]. split; [reflexivity | apply no_calls_one; reflexivity].
  - exact H.
Qed.

Lemma trace_emit (w : world) (es : list event) :
  trace (emit w es) = trace w ++ es.
Proof. reflexivity. Qed.

Section MainSteps.

Variable client : Config -> option string -> client_call -> Z * option string.
Variable EXIT_COMPLETED : Z.

(** [main] up to the first prompt: the settings are read, a bad target
    ends the run, and otherwise the warnings are printed. *)
Lemma main_eq (args : list cli_opt) (w : world) :
  let ns := parse_args args in
  let saved := saved_of (config_file w) in
  main client EXIT_COMPLETED args w
  = match split_positionals (arg_positional ns) with
    | inl e => (inr 1, emit w [Printed (ErrorValue e)])
    | inr ((tu, th, tp), words) =>
        or_ask (resolve_name "host" th (arg_host ns) saved)
               AskHostname ErrorHostRequired
               (fun host =>
                  or_ask (resolve_name "user" tu (arg_user ns) saved)
                         AskUsername ErrorUserRequired
                         (fun user =>
                            run_command client EXIT_COMPLETED ns saved tp words
                                        host user))
               (emit w (warnings ns tu th tp))
    end.
Proof.
  cbv zeta. unfold main, bind at 1, load_saved_config. cbv beta iota zeta.
  fold (saved_of (config_file w)).
  destruct (split_positionals (arg_positional (parse_args args)))
    as [e|[[[tu th] tp] words]].
  - reflexivity.
  - unfold warnings. cbv zeta.
    destruct (truthy_str th && truthy_str (arg_host (parse_args args)));
      destruct (truthy_str tu && truthy_str (arg_user (parse_args args)));
      destruct (truthy_int tp && truthy_int (arg_port (parse_args args)));
      unfold bind, when, print, log, ret, emit; simpl;
      rewrite <- ?app_assoc; simpl; rewrite ?app_nil_r;
      destruct w; reflexivity.
Qed.

(** The three ways [or_ask] goes on or ends. *)
Lemma or_ask_resolved (resolved : option string) (p : prompt)
    (required : message) (k : string -> M Z) (name : string) (w : world) :
  resolved = Some name -> PyStr.nonempty name = true ->
  or_ask resolved p required k w = k name w.
Proof. intros -> H. unfold or_ask. simpl. rewrite H. reflexivity. Qed.

Lemma or_ask_answer (resolved : option string) (p : prompt)
    (required : message) (k : string -> M Z) (line : string)
    (rest : list string) (w : world) :
  truthy_str resolved = false -> stdin w = line :: rest ->
  or_ask resolved p required k w
  = if PyStr.nonempty (PyStr.strip line)
    then k (PyStr.strip line) (answered w p rest)
    else (inr 1, emit (answered w p rest) [Printed required]).
Proof.
  intros T S. unfold or_ask. rewrite T. unfold bind, input. rewrite S.
  fold (answered w p rest).
  destruct (PyStr.nonempty (PyStr.strip line)); reflexivity.
Qed.

Lemma or_ask_eof (resolved : option string) (p : prompt)
    (required : message) (k : string -> M Z) (w : world) :
  truthy_str resolved = false -> stdin w = [] ->
  or_ask resolved p required k w = (inl EOFError, answered w p []).
Proof.
  intros T S. unfold or_ask. rewrite T. unfold bind, input. rewrite S.
  reflexivity.
Qed.

(** [or_ask] either goes on with a settled name from a world reached
    quietly, or gives up in such a world. *)
Lemma or_ask_cases (resolved : option string) (p : prompt)
    (required : message) (k : string -> M Z) (w : world) :
  (exists name w', settled resolved name /\ quiet_step w w'
                   /\ or_ask resolved p required k w = k name w')
  \/ (exists r w', gave_up r /\ quiet_step w w'
                   /\ or_ask resolved p required k w = (r, w')).
Proof.
  destruct (truthy_str resolved) eqn:T.
  - destruct resolved as [name|]; [|discriminate]. left.
    exists name, w. split; [split; [exact T | reflexivity]|].
    split; [apply quiet_step_refl|]. apply or_ask_resolved; [reflexivity | exact T].
  - destruct (stdin w) as [|line rest] eqn:S.
    + right. exists (inl EOFError), (answered w p []).
      split; [right; reflexivity|].
      split; [apply quiet_step_answered; exists []; rewrite S; reflexivity|].
      apply or_ask_eof; assumption.
    + rewrite (or_ask_answer _ _ _ _ line rest w T S).
      destruct (PyStr.nonempty (PyStr.strip line)) eqn:N.
      * left. exists (PyStr.strip line), (answered w p rest).
        split; [split; [exact N | congruence]|].
        split; [apply quiet_step_answered; exists [line]; rewrite S; reflexivity
               | reflexivity].
      * right. exists (inr 1), (emit (answered w p rest) [Printed required]).
        split; [left; reflexivity|]. split; [|reflexivity].
        eapply quiet_step_trans;
          [apply quiet_step_answered; exists [line]; rewrite S; reflexivity|].
        apply quiet_step_emit, no_calls_one. reflexivity.
Qed.

(** [main] either gives up without touching the settings file or calling
    the client, or reaches [run_command] with a settled host and user. *)
Lemma main_cases (args : list cli_opt) (w : world) :
  let ns := parse_args args in
  let saved := saved_of (config_file w) in
  (exists r w', gave_up r /\ quiet_step w w'
                /\ main client EXIT_COMPLETED args w = (r, w'))
  \/ (exists tu th tp words host user w',
         split_positionals (arg_positional ns) = inr ((tu, th, tp), words)
         /\ settled (resolve_name "host" th (arg_host ns) saved) host
         /\ settled (resolve_name "user" tu (arg_user ns) saved) user
         /\ quiet_step w w'
         /\ main client EXIT_COMPLETED args w
            = run_command client EXIT_COMPLETED ns saved tp words host user w').
Proof.
  cbv zeta. rewrite main_eq. cbv zeta.
  destruct (split_positionals (arg_positional (parse_args args)))
    as [e|[[[tu th] tp] words]].
  - left. exists (inr 1), (emit w [Printed (ErrorValue e)]).
    split; [left; reflexivity|]. split; [|reflexivity].
    apply quiet_step_emit, no_calls_one. reflexivity.
  - pose proof (quiet_step_emit w _ (warnings_no_calls (parse_args args) tu th tp))
      as Q0.
    match goal with
    | |- context [or_ask ?r ?p ?m ?k ?w0] =>
        destruct (or_ask_cases r p m k w0)
          as [(host & w1 & Hh & Q1 & E1)|(r1 & w1 & G & Q1 & E1)]
    end.
    + rewrite E1.
      match goal with
      | |- context [or_ask ?r ?p ?m ?k ?w0] =>
          destruct (or_ask_cases r p m k w0)
            as [(user & w2 & Hu & Q2 & E2)|(r2 & w2 & G & Q2 & E2)]
      end.
      * right. exists tu, th, tp, words, host, user, w2.
        split; [reflexivity|]. split; [exact Hh|]. split; [exact Hu|].
        split; [|exact E2].
        eapply quiet_step_trans; [exact Q0|].
        eapply quiet_step_trans; [exact Q1 | exact Q2].
      * left. exists r2, w2. split; [exact G|]. split; [|exact E2].
        eapply quiet_step_trans; [exact Q0|].
        eapply quiet_step_trans; [exact Q1 | exact Q2].
    + left. exists r1, w1. split; [exact G|]. split; [|exact E1].
      eapply quiet_step_trans; [exact Q0 | exact Q1].
Qed.

End MainSteps.

Section CommandSteps.

Variable client : Config -> option string -> client_call -> Z * option string.
Variable EXIT_COMPLETED : Z.

Lemma run_and_save_eq (cfg : Config) (ls : option string) (host user : string)
    (auto : bool) (port : pyint) (c : client_call) (w : world) :
  run_and_save client cfg ls host user auto port c w
  = (inr (fst (client cfg ls c)),
     if truthy_str (snd (client cfg ls c))
     then snd (save_config host user (snd (client cfg ls c)) auto port
                           (emit w [Called cfg ls c]))
     else emit w [Called cfg ls c]).
Proof.
  unfold run_and_save, call_client, bind, log, ret, when, emit. simpl.
  destruct (client cfg ls c) as [result current]. simpl.
  destruct (truthy_str current); [|reflexivity].
  unfold save_config. simpl. destruct (config_writable w); reflexivity.
Qed.

Lemma save_config_io (host user : string) (ls : option string) (auto : bool)
    (port : pyint) (w : world) :
  stdin (snd (save_config host user ls auto port w)) = stdin w
  /\ trace (snd (save_config host user ls auto port w)) = trace w
  /\ config_writable (snd (save_config host user ls auto port w))
     = config_writable w.
Proof.
  unfold save_config. destruct (config_writable w) eqn:E; simpl; auto.
Qed.

Lemma run_and_save_result (cfg : Config) (ls : option string)
    (host user : string) (auto : bool) (port : pyint) (c : client_call)
    (w : world) :
  fst (run_and_save client cfg ls host user auto port c w)
  = inr (fst (client cfg ls c))
  /\ trace (snd (run_and_save client cfg ls host user auto port c w))
     = trace w ++ [Called cfg ls c]
  /\ stdin (snd (run_and_save client cfg ls host user auto port c w))
     = stdin w.
Proof.
  rewrite run_and_save_eq. split; [reflexivity|].
  destruct (truthy_str (snd (client cfg ls c))).
  - destruct (save_config_io host user (snd (client cfg ls c)) auto port
                (emit w [Called cfg ls c])) as (Hi & Ht & _).
    simpl snd. rewrite Hi, Ht. split; reflexivity.
  - split; reflexivity.
Qed.

Lemma bind_save_config {B : Type} (host user : string) (ls : option string)
    (auto : bool) (port : pyint) (k : unit -> M B) (w : world) :
  bind (save_config host user ls auto port) k w
  = k tt (snd (save_config host user ls auto port w)).
Proof.
  unfold bind, save_config. destruct (config_writable w); reflexivity.
Qed.

(** The second half of [main]: after the first [save_config], either
    [clear_credentials] is called, or the command prompt meets the end of
    input, or the selected call is made and followed by the conditional
    second [save_config]. *)
Lemma run_command_cases (ns : Namespace) (saved : dict) (tp : option Z)
    (words : list string) (host user : string) (w : world) :
  let port := resolve_port tp (arg_port ns) saved in
  let auto := resolve_auto (arg_auto ns) saved in
  let ls := str_or_none (dict_get "last_server" saved) in
  let cfg := mkConfig host user port in
  let w1 := snd (save_config host user ls auto port w) in
  let run := run_command client EXIT_COMPLETED ns saved tp words host user w in
  (arg_clear ns = true
   /\ run = (inr EXIT_COMPLETED, emit w1 [Called cfg ls ClearCredentials]))
  \/ (command_mode ns /\ PyStr.join_spaces words = EmptyString
      /\ stdin w = []
      /\ run = (inl EOFError, answered w1 AskCommand []))
  \/ (exists text c w2,
         arg_clear ns = false /\ selects ns auto text c
         /\ run = run_and_save client cfg ls host user auto port c w2
         /\ ((w2 = w1
              /\ (command_mode ns ->
                  text = PyStr.join_spaces words /\ text <> EmptyString))
             \/ (command_mode ns /\ PyStr.join_spaces words = EmptyString
                 /\ exists line rest,
                     stdin w = line :: rest /\ text = PyStr.strip line
                     /\ w2 = answered w1 AskCommand rest))).
Proof.
  cbv zeta. unfold run_command. cbv zeta. rewrite bind_save_config.
  pose proof (save_config_io host user
                (str_or_none (dict_get "last_server" saved))
                (resolve_auto (arg_auto ns) saved)
                (resolve_port tp (arg_port ns) saved) w) as [Hin _].
  set (w1 := snd (save_config host user
                    (str_or_none (dict_get "last_server" saved))
                    (resolve_auto (arg_auto ns) saved)
                    (resolve_port tp (arg_port ns) saved) w)) in *.
  unfold selects, command_mode.
  destruct (arg_clear ns) eqn:C.
  { left. split; [reflexivity|].
    unfold call_client, bind, log, ret, emit. reflexivity. }
  right.
  destruct (arg_list ns) eqn:L.
  { right. exists EmptyString, ListRunning, w1.
    split; [reflexivity|]. split; [reflexivity|]. split; [reflexivity|].
    left. split; [reflexivity|]. intros (_ & H & _). discriminate H. }
  destruct (arg_cleanup ns) eqn:U.
  { right. exists EmptyString, Cleanup, w1.
    split; [reflexivity|]. split; [reflexivity|]. split; [reflexivity|].
    left. split; [reflexivity|]. intros (_ & _ & H & _). discriminate H. }
  destruct (arg_attach ns) as [att|] eqn:A.
  { right. exists EmptyString, (Attach (PyStr.or_none att)), w1.
    split; [reflexivity|]. split; [reflexivity|]. split; [reflexivity|].
    left. split; [reflexivity|]. intros (_ & _ & _ & H & _). discriminate H. }
  destruct (arg_kill ns) as [k|] eqn:K.
  { right. exists EmptyString, (Kill (PyStr.or_none k) (arg_yes ns)), w1.
    split; [reflexivity|]. split; [reflexivity|]. split; [reflexivity|].
    left. split; [reflexivity|]. intros (_ & _ & _ & _ & H). discriminate H. }
  destruct (PyStr.join_spaces words) as [|a text] eqn:J.
  - simpl PyStr.nonempty. cbv iota. unfold bind, input.
    rewrite Hin. destruct (stdin w) as [|line rest] eqn:S.
    + left. repeat split.
    + right. exists (PyStr.strip line). eexists.
      exists (answered w1 AskCommand rest).
      split; [reflexivity|]. split; [reflexivity|]. split; [reflexivity|].
      right. repeat split. exists line, rest. repeat split.
  - right. exists (String a text). eexists. exists w1.
    split; [reflexivity|]. split; [reflexivity|]. split; [reflexivity|].
    left. split; [reflexivity|]. intros _. split; [reflexivity | discriminate].
Qed.

End CommandSteps.

Section MainSummary.

Variable client : Config -> option string -> client_call -> Z * option string.
Variable EXIT_COMPLETED : Z.

Lemma selects_not_clear (ns : Namespace) (auto : bool) (text : string)
    (c : client_call) :
  arg_clear ns = false -> selects ns auto text c -> c <> ClearCredentials.
Proof.
  unfold selects. intros ->.
  destruct (arg_list ns); [intros ->; discriminate|].
  destruct (arg_cleanup ns); [intros ->; discriminate|].
  destruct (arg_attach ns); [intros ->; discriminate|].
  destruct (arg_kill ns); intros ->; discriminate.
Qed.

Lemma remembers_after_save (host user : string) (port : pyint) (auto : bool)
    (ls : option string) (w : world) :
  config_writable w = true ->
  remembers (snd (save_config host user ls auto port w))
            (mkConfig host user port) auto
            (if truthy_str ls then ls else None).
Proof.
  intros Hw. destruct (save_config_file host user ls auto port w Hw)
    as (_ & _ & _ & d & Hd & H1 & H2 & H3 & H4 & H5).
  exists d. auto 10.
Qed.

Lemma remembers_same_file (w1 w2 : world) (cfg : Config) (auto : bool)
    (hint : option string) :
  config_file w2 = config_file w1 ->
  remembers w1 cfg auto hint -> remembers w2 cfg auto hint.
Proof. intros E (d & Hd & H). exists d. rewrite E. split; assumption. Qed.

(** The world after the call and the conditional second [save_config]. *)
Lemma after_call (host user : string) (port : pyint) (auto : bool)
    (reported : option string) (w : world) :
  let w' := if truthy_str reported
            then snd (save_config host user reported auto port w)
            else w in
  trace w' = trace w
  /\ (config_writable w = true ->
      forall before,
        remembers w (mkConfig host user port) auto
                  (if truthy_str before then before else None) ->
        remembers w' (mkConfig host user port) auto
                  (kept_hint false reported before)).
Proof.
  cbv zeta. unfold kept_hint. simpl negb. rewrite andb_true_l.
  destruct (truthy_str reported) eqn:T.
  - split; [apply save_config_io|]. intros Hw before _.
    pose proof (remembers_after_save host user port auto reported w Hw) as R.
    rewrite T in R. exact R.
  - split; [reflexivity|]. intros _ before R. exact R.
Qed.

(** Every run of [main] either gives up quietly, or meets the end of
    input at the command prompt after the first [save_config], or makes
    exactly one client call, as its last event. *)
Lemma main_summary (args : list cli_opt) (f : file) (wr : bool)
    (answers : list string) :
  let ns := parse_args args in
  let saved := saved_of f in
  let auto := resolve_auto (arg_auto ns) saved in
  let ls := last_server_entry saved in
  let run := run_main client EXIT_COMPLETED args f wr answers in
  (gave_up (fst run) /\ quiet_step (mkWorld f wr answers []) (snd run))
  \/ (exists tu th tp words host user,
         split_positionals (arg_positional ns) = inr ((tu, th, tp), words)
         /\ settled (resolve_name "host" th (arg_host ns) saved) host
         /\ settled (resolve_name "user" tu (arg_user ns) saved) user
         /\ let cfg := mkConfig host user (resolve_port tp (arg_port ns) saved) in
            (command_mode ns /\ PyStr.join_spaces words = EmptyString
             /\ fst run = inl EOFError /\ no_calls (trace (snd run))
             /\ (wr = true ->
                 remembers (snd run) cfg auto (kept_hint true None ls)))
            \/ (exists pre text c,
                   selects ns auto text c
                   /\ trace (snd run) = pre ++ [Called cfg ls c]
                   /\ no_calls pre
                   /\ fst run = inr (if arg_clear ns then EXIT_COMPLETED
                                     else fst (client cfg ls c))
                   /\ (command_mode ns ->
                       (text = PyStr.join_spaces words /\ text <> EmptyString)
                       \/ (PyStr.join_spaces words = EmptyString
                           /\ exists line, In line answers
                                           /\ text = PyStr.strip line))
                   /\ (wr = true ->
                       remembers (snd run) cfg auto
                                 (kept_hint (arg_clear ns)
                                            (snd (client cfg ls c)) ls)))).
Proof.
  cbv zeta. unfold run_main, last_server_entry.
  set (ns := parse_args args). set (saved := saved_of f).
  set (auto := resolve_auto (arg_auto ns) saved).
  set (ls := str_or_none (dict_get "last_server" saved)).
  destruct (main_cases client EXIT_COMPLETED args (mkWorld f wr answers []))
    as [(r & w' & G & Q & E)|(tu & th & tp & words & host & user & w' & S & Hh
                              & Hu & Q & E)].
  { left. rewrite E. split; assumption. }
  right. exists tu, th, tp, words, host, user. simpl config_file in *.
  fold ns saved in S, Hh, Hu, E.
  split; [exact S|]. split; [exact Hh|]. split; [exact Hu|].
  rewrite E. clear E.
  destruct Q as (Qf & Qw & (es & Qt & Qn) & (used & Qs)).
  simpl in Qf, Qw, Qt, Qs.
  set (port := resolve_port tp (arg_port ns) saved).
  pose proof (save_config_io host user ls auto port w') as (Hi1 & Ht1 & Hw1).
  assert (Hrem : wr = true ->
                 remembers (snd (save_config host user ls auto port w'))
                           (mkConfig host user port) auto
                           (if truthy_str ls then ls else None)).
  { intros ->. apply remembers_after_save. exact Qw. }
  pose proof (run_command_cases client EXIT_COMPLETED ns saved tp words host
                user w') as RC.
  cbv zeta in RC. fold auto ls port in RC.
  set (w1 := snd (save_config host user ls auto port w')) in *.
  destruct RC as [[C E]|[(M & J & St & E)|(text & c & w2 & C & Sel & E & W2)]];
    rewrite E; clear E.
  - right. exists es, EmptyString, ClearCredentials.
    split; [unfold selects; rewrite C; reflexivity|].
    split; [simpl fst; simpl snd; rewrite trace_emit, Ht1, Qt; reflexivity|].
    split; [exact Qn|]. split; [rewrite C; reflexivity|].
    split; [intros (H & _); congruence|].
    intros W. rewrite C. apply (remembers_same_file w1); [reflexivity|].
    exact (Hrem W).
  - left. split; [exact M|]. split; [exact J|]. split; [reflexivity|].
    split.
    + simpl snd. unfold answered. simpl trace. rewrite Ht1, Qt.
      apply no_calls_app; [exact Qn | apply no_calls_one; reflexivity].
    + intros W. apply (remembers_same_file w1); [reflexivity|].
      exact (Hrem W).
  - right. rewrite run_and_save_eq. simpl fst. simpl snd.
    pose proof (selects_not_clear _ _ _ _ C Sel) as Hc. rewrite C.
    assert (Hw2 : config_file w2 = config_file w1
                  /\ config_writable w2 = config_writable w1
                  /\ exists more, trace w2 = es ++ more /\ no_calls more).
    { destruct W2 as [[-> _]|(_ & _ & line & rest & _ & _ & ->)].
      - split; [reflexivity|]. split; [reflexivity|].
        exists []. rewrite app_nil_r, Ht1, Qt. split; [reflexivity|].
        apply no_calls_nil.
      - split; [reflexivity|]. split; [reflexivity|].
        exists [Asked AskCommand]. unfold answered. simpl trace.
        rewrite Ht1, Qt. split; [reflexivity|].
        apply no_calls_one. reflexivity. }
    destruct Hw2 as (Hf2 & Hwr2 & more & Ht2 & Hn2).
    pose proof (after_call host user port auto
                  (snd (client (mkConfig host user port) ls c))
                  (emit w2 [Called (mkConfig host user port) ls c]))
      as [Ht Hk].
    cbv zeta in Ht, Hk.
    exists (es ++ more), text, c.
    split; [exact Sel|].
    split; [rewrite Ht, trace_emit, Ht2; reflexivity|].
    split; [apply no_calls_app; assumption|].
    split; [reflexivity|]. split.
    { intros M. destruct W2 as [[_ H]|(_ & J & line & rest & St & -> & _)].
      - left. exact (H M).
      - right. split; [exact J|]. exists line. split; [|reflexivity].
        rewrite Qs, St. apply in_or_app. right. left. reflexivity. }
    intros W. apply Hk.
    + unfold emit. simpl config_writable. rewrite Hwr2, Hw1, Qw. exact W.
    + apply (remembers_same_file w1); [exact Hf2 | exact (Hrem W)].
Qed.

End MainSummary.

(** ** The four formats of a connection target *)

Lemma decimal_not_colon (c : ascii) :
  PyStr.is_decimal c = true -> Ascii.eqb c ":" = false.
Proof.
  destruct (Ascii.eqb_spec c ":") as [->|]; [discriminate | reflexivity].
Qed.

Lemma numeric_no_colon (ds : string) :
  PyStr.all_chars PyStr.is_decimal ds = true -> PyStr.contains ":" ds = false.
Proof.
  induction ds as [|a ds IH]; simpl; [reflexivity|].
  intros H. apply andb_true_iff in H as [Ha Hd].
  rewrite (decimal_not_colon a Ha). exact (IH Hd).
Qed.

Lemma or_none_some (s : string) : s <> EmptyString -> PyStr.or_none s = Some s.
Proof. destruct s; [contradiction | reflexivity]. Qed.

Lemma port_step_valid (user : option string) (host ds : string) :
  TargetSpec.numeric ds = true ->
  Z.of_nat (String.length ds) <= 4300 ->
  TargetSpec.valid_port (TargetSpec.decimal_value ds) ->
  port_step user host ds
  = inr (user, PyStr.or_none host, Some (TargetSpec.decimal_value ds)).
Proof.
  intros N L V. unfold port_step.
  assert (W : PyStr.within_digit_limit ds = true).
  { unfold PyStr.within_digit_limit, PyStr.int_max_str_digits.
    apply Z.leb_le. exact L. }
  rewrite (numeric_isdigit ds N), int_of_digits_numeric, N, W. simpl.
  apply range_test in V. rewrite V. reflexivity.
Qed.

Lemma host_part_with_user (u rest : string) :
  PyStr.contains "@" u = false ->
  PyStr.split1 "@" (u ++ String "@" rest)%string = Some (u, rest).
Proof. intros H. apply split1_some. split; [reflexivity | exact H]. Qed.

Lemma host_part_without_user (arg : string) :
  PyStr.contains "@" arg = false -> PyStr.split1 "@" arg = None.
Proof. apply split1_none. Qed.

(** The formats of the docstring.  For a user [u] without '@', a host
    [h] and a run of at most 4300 decimal digits [ds] naming a port in
    range, all non-empty: [u@h:ds] gives [(u, h, port)]; [h:ds] gives
    [(None, h, port)] when [h] holds no '@'; [u@h] gives [(u, h, None)]
    when [h] holds no ':'; and [h] alone gives [(None, h, None)] when it
    holds neither.  The host of the first two formats may itself hold
    ':', and the host after a user may hold '@'. *)
Theorem parse_connection_target_formats (u h ds : string) :
  PyStr.contains "@" u = false ->
  u <> EmptyString ->
  h <> EmptyString ->
  TargetSpec.numeric ds = true ->
  Z.of_nat (String.length ds) <= 4300 ->
  TargetSpec.valid_port (TargetSpec.decimal_value ds) ->
  parse_connection_target (u ++ "@" ++ h ++ ":" ++ ds)%string
  = inr (Some u, Some h, Some (TargetSpec.decimal_value ds))
  /\ (PyStr.contains "@" h = false ->
      parse_connection_target (h ++ ":" ++ ds)%string
      = inr (None, Some h, Some (TargetSpec.decimal_value ds)))
  /\ (PyStr.contains ":" h = false ->
      parse_connection_target (u ++ "@" ++ h)%string
      = inr (Some u, Some h, None))
  /\ (PyStr.contains ":" h = false -> PyStr.contains "@" h = false ->
      parse_connection_target h = inr (None, Some h, None)).
Proof.
  intros Hu Nu Nh N L V.
  assert (Hds : PyStr.contains ":" ds = false).
  { apply numeric_no_colon. unfold TargetSpec.numeric in N.
    apply andb_true_iff in N as [_ N]. exact N. }
  assert (Hat : PyStr.contains "@" ds = false).
  { unfold TargetSpec.numeric in N. apply andb_true_iff in N as [_ N].
    clear -N. induction ds as [|a ds IH]; simpl; [reflexivity|].
    simpl in N. apply andb_true_iff in N as [Ha Hd].
    destruct (Ascii.eqb_spec a "@") as [->|]; [discriminate | exact (IH Hd)]. }
  assert (R : PyStr.rsplit1 ":" (h ++ ":" ++ ds)%string = Some (h, ds)).
  { apply rsplit1_some. split; [reflexivity | exact Hds]. }
  repeat split.
  - rewrite parse_connection_target_unfold. unfold TargetSpec.host_part.
    simpl append. rewrite (host_part_with_user u _ Hu). cbv zeta.
    simpl append in R. rewrite R, (port_step_valid _ _ _ N L V).
    rewrite !or_none_some by assumption. reflexivity.
  - intros Hh. rewrite parse_connection_target_unfold. unfold TargetSpec.host_part.
    assert (E : PyStr.split1 "@" (h ++ ":" ++ ds)%string = None).
    { apply split1_none. rewrite contains_app, Hh. simpl. exact Hat. }
    rewrite E. cbv zeta. rewrite R, (port_step_valid _ _ _ N L V).
    rewrite or_none_some by assumption. reflexivity.
  - intros Hc. rewrite parse_connection_target_unfold. unfold TargetSpec.host_part.
    simpl append. rewrite (host_part_with_user u _ Hu). cbv zeta.
    rewrite (proj2 (rsplit1_none ":" h) Hc).
    rewrite !or_none_some by assumption. reflexivity.
  - intros Hc Hh. rewrite parse_connection_target_unfold.
    unfold TargetSpec.host_part. rewrite (host_part_without_user h Hh).
    cbv zeta. rewrite (proj2 (rsplit1_none ":" h) Hc).
    rewrite or_none_some by assumption. reflexivity.
Qed.

Lemma parse_connection_target_formats_witness :
  parse_connection_target "bob@example.org:2222"
  = inr (Some "bob", Some "example.org", Some 2222)
  /\ (PyStr.contains "@" "example.org" = false ->
      parse_connection_target "example.org:2222"
      = inr (None, Some "example.org", Some 2222))
  /\ (PyStr.contains ":" "example.org" = false ->
      parse_connection_target "bob@example.org"
      = inr (Some "bob", Some "example.org", None))
  /\ (PyStr.contains ":" "example.org" = false ->
      PyStr.contains "@" "example.org" = false ->
      parse_connection_target "example.org"
      = inr (None, Some "example.org", None)).
Proof.
  apply (parse_connection_target_formats "bob" "example.org" "2222").
  - reflexivity.
  - discriminate.
  - discriminate.
  - reflexivity.
  - simpl. lia.
  - split; vm_compute; discriminate.
Defined.

(** The other way round: when a user, a host and a port all come back,
    the argument was [user@host:digits], the user holds no '@', and the
    digits are decimal and name the port. *)
Theorem parse_connection_target_full (arg u h : string) (p : Z) :
  parse_connection_target arg = inr (Some u, Some h, Some p) ->
  exists ds,
    arg = (u ++ "@" ++ h ++ ":" ++ ds)%string
    /\ PyStr.contains "@" u = false
    /\ PyStr.contains ":" ds = false
    /\ TargetSpec.numeric ds = true
    /\ TargetSpec.decimal_value ds = p.
Proof.
  rewrite parse_connection_target_unfold. unfold TargetSpec.host_part. cbv zeta.
  destruct (PyStr.split1 "@" arg) as [[us hp]|] eqn:S.
  - apply split1_some in S as [-> Hus].
    destruct (PyStr.rsplit1 ":" hp) as [[hs ds]|] eqn:R; [|discriminate].
    apply rsplit1_some in R as [-> Hds].
    intros H. apply port_step_ok in H as (Eu & Eh & N & Ep & _).
    exists ds.
    assert (us = u) as ->.
    { unfold PyStr.or_none in Eu. destruct (PyStr.nonempty us); congruence. }
    assert (hs = h) as ->.
    { unfold PyStr.or_none in Eh. destruct (PyStr.nonempty hs); congruence. }
    repeat split; try assumption. congruence.
  - destruct (PyStr.rsplit1 ":" arg) as [[hs ds]|]; [|discriminate].
    intros H. apply port_step_ok in H as (Eu & _). discriminate Eu.
Qed.

Lemma parse_connection_target_full_witness :
  exists ds,
    "bob@example.org:0022" = ("bob" ++ "@" ++ "example.org" ++ ":" ++ ds)%string
    /\ PyStr.contains "@" "bob" = false
    /\ PyStr.contains ":" ds = false
    /\ TargetSpec.numeric ds = true
    /\ TargetSpec.decimal_value ds = 22.
Proof.
  apply (parse_connection_target_full "bob@example.org:0022" "bob" "example.org" 22).
  reflexivity.
Defined.

(** ** What a run of [main] does *)

Lemma the_call (pre : list event) (cfg0 cfg : Config) (ls0 ls : option string)
    (c0 c : client_call) :
  no_calls pre ->
  In (Called cfg ls c) (pre ++ [Called cfg0 ls0 c0]) ->
  cfg = cfg0 /\ ls = ls0 /\ c = c0.
Proof.
  intros Hn Hin. apply in_app_or in Hin as [Hin|[E|[]]].
  - destruct (Hn _ _ _ Hin).
  - injection E as -> -> ->. auto.
Qed.

Lemma selects_execute (ns : Namespace) (auto : bool) (text text' : string)
    (t : option Z) (i : Z) (n fo a : bool) :
  selects ns auto text (Execute text' t i n fo a) ->
  command_mode ns /\ text' = text.
Proof.
  unfold selects, command_mode.
  destruct (arg_clear ns); [discriminate|].
  destruct (arg_list ns); [discriminate|].
  destruct (arg_cleanup ns); [discriminate|].
  destruct (arg_attach ns); [discriminate|].
  destruct (arg_kill ns); [discriminate|].
  intros H. injection H as -> _. auto 10.
Qed.

Section MainExtras.

Variable client : Config -> option string -> client_call -> Z * option string.
Variable EXIT_COMPLETED : Z.


(** The mode flags are tested in a fixed order: [--clear] wins over
    [--list], which wins over [--cleanup], [--attach], [--kill] and the
    command; a bare [--attach] or [--kill] (or one with an empty name)
    passes [None] for auto-detection, and [--yes] is the [force] of
    [kill]. *)
Theorem mode_flags_select_the_call (args : list cli_opt) (f : file)
    (wr : bool) (answers : list string) (cfg : Config) (ls : option string)
    (c : client_call) :
  In (Called cfg ls c)
     (trace (snd (run_main client EXIT_COMPLETED args f wr answers))) ->
  let ns := parse_args args in
  (arg_clear ns = true -> c = ClearCredentials)
  /\ (arg_clear ns = false -> arg_list ns = true -> c = ListRunning)
  /\ (arg_clear ns = false -> arg_list ns = false -> arg_cleanup ns = true ->
      c = Cleanup)
  /\ (forall a, arg_clear ns = false -> arg_list ns = false ->
                arg_cleanup ns = false -> arg_attach ns = Some a ->
                c = Attach (PyStr.or_none a))
  /\ (forall k, arg_clear ns = false -> arg_list ns = false ->
                arg_cleanup ns = false -> arg_attach ns = None ->
                arg_kill ns = Some k ->
                c = Kill (PyStr.or_none k) (arg_yes ns))
  /\ (command_mode ns ->
      exists text, c = Execute text (arg_timeout ns) (arg_idle_timeout ns)
                               (arg_new ns) (arg_force ns)
                               (resolve_auto (arg_auto ns) (saved_of f))).
Proof.
  intros Hin. cbv zeta.
  destruct (main_summary client EXIT_COMPLETED args f wr answers)
    as [[G Q]|(tu & th & tp & words & host & user & _ & _ & _ & H)].
  { destruct Q as (_ & _ & (es & Ht & Hn) & _). rewrite Ht in Hin.
    destruct (Hn _ _ _ Hin). }
  cbv zeta in H.
  destruct H as [(_ & _ & _ & Hn & _)|(pre & text & c0 & Sel & Ht & Hn & _)].
  { destruct (Hn _ _ _ Hin). }
  rewrite Ht in Hin. apply the_call in Hin as (_ & _ & ->); [|exact Hn].
  unfold selects in Sel. unfold command_mode.
  repeat split.
  - intros C. rewrite C in Sel. exact Sel.
  - intros C L. rewrite C, L in Sel. exact Sel.
  - intros C L U. rewrite C, L, U in Sel. exact Sel.
  - intros a C L U A. rewrite C, L, U, A in Sel. exact Sel.
  - intros k C L U A K. rewrite C, L, U, A, K in Sel. exact Sel.
  - intros (C & L & U & A & K). rewrite C, L, U, A, K in Sel.
    exists text. exact Sel.
Qed.

Lemma ready_step_refl (w : world) : ready_step w w.
Proof.
  split; [reflexivity|]. split; [reflexivity|]. exists [], [].
  rewrite app_nil_r. repeat split; [apply no_calls_nil | intros []].
Qed.

Lemma prompts_app (a b : list event) : prompts (a ++ b) = (prompts a + prompts b)%nat.
Proof. unfold prompts. rewrite filter_app, length_app. reflexivity. Qed.

Lemma ready_step_trans (w1 w2 w3 : world) :
  ready_step w1 w2 -> ready_step w2 w3 -> ready_step w1 w3.
Proof.
  intros (F1 & W1 & es1 & u1 & T1 & S1 & N1 & A1 & L1)
         (F2 & W2 & es2 & u2 & T2 & S2 & N2 & A2 & L2).
  split; [congruence|]. split; [congruence|].
  exists (es1 ++ es2), (u1 ++ u2).
  split; [rewrite T2, T1, app_assoc; reflexivity|].
  split; [rewrite S1, S2, app_assoc; reflexivity|].
  split; [apply no_calls_app; assumption|].
  split.
  - intros H. apply in_app_or in H as [H|H]; [exact (A1 H) | exact (A2 H)].
  - rewrite length_app, prompts_app, L1, L2. reflexivity.
Qed.

Lemma warnings_ready (ns : Namespace) (tu th : option string) (tp : option Z)
    (w : world) :
  ready_step w (emit w (warnings ns tu th tp)).
Proof.
  split; [reflexivity|]. split; [reflexivity|].
  exists (warnings ns tu th tp), [].
  split; [reflexivity|]. split; [reflexivity|].
  split; [apply warnings_no_calls|].
  unfold warnings. cbv zeta.
  destruct (truthy_str th && truthy_str (arg_host ns));
    destruct (truthy_str tu && truthy_str (arg_user ns));
    destruct (truthy_int tp && truthy_int (arg_port ns));
    simpl; split; try reflexivity; intuition discriminate.
Qed.

(** [or_ask] at the host or user prompt: it goes on from a world reached
    by answering at most that one prompt, or gives up. *)
Lemma or_ask_ready (resolved : option string) (p : prompt)
    (required : message) (k : string -> M Z) (w : world) :
  p <> AskCommand ->
  (exists name w', ready_step w w'
                   /\ or_ask resolved p required k w = k name w')
  \/ (exists r w', gave_up r /\ quiet_step w w'
                   /\ or_ask resolved p required k w = (r, w')).
Proof.
  intros Hp. destruct (truthy_str resolved) eqn:T.
  - destruct resolved as [name|]; [|discriminate]. left.
    exists name, w. split; [apply ready_step_refl|].
    apply or_ask_resolved; [reflexivity | exact T].
  - destruct (stdin w) as [|line rest] eqn:S.
    + right. exists (inl EOFError), (answered w p []).
      split; [right; reflexivity|].
      split; [apply quiet_step_answered; exists []; rewrite S; reflexivity|].
      apply or_ask_eof; assumption.
    + rewrite (or_ask_answer _ _ _ _ line rest w T S).
      destruct (PyStr.nonempty (PyStr.strip line)) eqn:N.
      * left. exists (PyStr.strip line), (answered w p rest).
        split; [|reflexivity].
        split; [reflexivity|]. split; [reflexivity|].
        exists [Asked p], [line].
        split; [reflexivity|]. split; [exact S|].
        split; [apply no_calls_one; reflexivity|].
        split; [|reflexivity].
        intros [E|[]]. injection E as E. exact (Hp E).
      * right. exists (inr 1), (emit (answered w p rest) [Printed required]).
        split; [left; reflexivity|]. split; [|reflexivity].
        eapply quiet_step_trans;
          [apply quiet_step_answered; exists [line]; rewrite S; reflexivity|].
        apply quiet_step_emit, no_calls_one. reflexivity.
Qed.

(** [main] either gives up, or reaches [run_command] having answered the
    host and user prompts it met, line by line. *)
Lemma main_ready (args : list cli_opt) (w : world) :
  let ns := parse_args args in
  let saved := saved_of (config_file w) in
  (exists r w', gave_up r /\ quiet_step w w'
                /\ main client EXIT_COMPLETED args w = (r, w'))
  \/ (exists tu th tp words host user w',
         split_positionals (arg_positional ns) = inr ((tu, th, tp), words)
         /\ ready_step w w'
         /\ main client EXIT_COMPLETED args w
            = run_command client EXIT_COMPLETED ns saved tp words host user w').
Proof.
  cbv zeta. rewrite main_eq. cbv zeta.
  destruct (split_positionals (arg_positional (parse_args args)))
    as [e|[[[tu th] tp] words]].
  - left. exists (inr 1), (emit w [Printed (ErrorValue e)]).
    split; [left; reflexivity|]. split; [|reflexivity].
    apply quiet_step_emit, no_calls_one. reflexivity.
  - pose proof (warnings_ready (parse_args args) tu th tp w) as R0.
    pose proof (quiet_step_emit w _ (warnings_no_calls (parse_args args) tu th tp))
      as Q0.
    match goal with
    | |- context [or_ask ?r AskHostname ?m ?k ?w0] =>
        destruct (or_ask_ready r AskHostname m k w0)
          as [(host & w1 & R1 & E1)|(r1 & w1 & G & Q1 & E1)];
        [discriminate| |]
    end.
    + rewrite E1.
      match goal with
      | |- context [or_ask ?r AskUsername ?m ?k ?w0] =>
          destruct (or_ask_ready r AskUsername m k w0)
            as [(user & w2 & R2 & E2)|(r2 & w2 & G & Q2 & E2)];
          [discriminate| |]
      end.
      * right. exists tu, th, tp, words, host, user, w2.
        split; [reflexivity|]. split; [|exact E2].
        eapply ready_step_trans; [exact R0|].
        eapply ready_step_trans; [exact R1 | exact R2].
      * left. exists r2, w2. split; [exact G|]. split; [|exact E2].
        eapply quiet_step_trans; [exact Q0|].
        eapply quiet_step_trans; [|exact Q2].
        destruct R1 as (F & W & es & used & T & S & N & _ & _).
        split; [exact F|]. split; [exact W|].
        split; [exists es; split; assumption | exists used; exact S].
    + left. exists r1, w1. split; [exact G|]. split; [|exact E1].
      eapply quiet_step_trans; [exact Q0 | exact Q1].
Qed.

(** The command handed to [execute] is made of the positional words
    that are left once a connection target was taken off, joined by
    single spaces, and then the command prompt is never issued.  Only
    when that text is empty is the prompt issued, once, right before the
    call; the command is then the stripped line read at that prompt:
    the line that follows those answered to the earlier prompts, one
    line each, and everything after it is left unread. *)
Theorem executed_command (args : list cli_opt) (f : file) (wr : bool)
    (answers : list string) (cfg : Config) (ls : option string)
    (text : string) (t : option Z) (i : Z) (n fo a : bool) :
  let run := run_main client EXIT_COMPLETED args f wr answers in
  In (Called cfg ls (Execute text t i n fo a)) (trace (snd run)) ->
  exists tu th tp words,
    split_positionals (arg_positional (parse_args args))
    = inr ((tu, th, tp), words)
    /\ ((text = PyStr.join_spaces words /\ text <> EmptyString
         /\ ~ In (Asked AskCommand) (trace (snd run)))
        \/ (PyStr.join_spaces words = EmptyString
            /\ exists pre before line,
                trace (snd run)
                = pre ++ [Asked AskCommand;
                          Called cfg ls (Execute text t i n fo a)]
                /\ ~ In (Asked AskCommand) pre
                /\ answers = before ++ line :: stdin (snd run)
                /\ List.length before = prompts pre
                /\ text = PyStr.strip line)).
Proof.
  cbv zeta. unfold run_main. intros Hin.
  destruct (main_ready args (mkWorld f wr answers []))
    as [(r & w' & G & Q & E)|(tu & th & tp & words & host & user & w' & S & R & E)];
    rewrite E in Hin |- *; clear E.
  { simpl in Hin. destruct Q as (_ & _ & (es & Ht & Hn) & _).
    rewrite Ht in Hin. destruct (Hn _ _ _ Hin). }
  destruct R as (_ & _ & es & used & Ht & Hs & Hn & Ha & Hl).
  simpl in Ht, Hs. simpl config_file in *.
  exists tu, th, tp, words. split; [exact S|].
  pose proof (save_config_io host user
                (str_or_none (dict_get "last_server" (saved_of f)))
                (resolve_auto (arg_auto (parse_args args)) (saved_of f))
                (resolve_port tp (arg_port (parse_args args)) (saved_of f)) w')
    as (Hi1 & Ht1 & _).
  pose proof (run_command_cases client EXIT_COMPLETED (parse_args args)
                (saved_of f) tp words host user w') as RC.
  cbv zeta in RC.
  destruct RC as [[C E]|[(M & J & St & E)|(text0 & c & w2 & C & Sel & E & W2)]];
    rewrite E in Hin |- *; clear E.
  - cbn [fst snd] in Hin. rewrite trace_emit, Ht1, Ht in Hin.
    apply the_call in Hin as (_ & _ & Hc); [discriminate Hc | exact Hn].
  - cbn [fst snd] in Hin.
    change (trace (answered ?w ?p ?r)) with (trace w ++ [Asked p]) in Hin.
    rewrite Ht1, Ht in Hin. apply in_app_or in Hin as [Hin|[Hin|[]]];
      [destruct (Hn _ _ _ Hin) | discriminate Hin].
  - match goal with
    | |- context [run_and_save _ ?cfg0 ?ls0 ?h ?u ?au ?p ?c0 ?w0] =>
        destruct (run_and_save_result client cfg0 ls0 h u au p c0 w0)
          as (_ & Htr & Hst)
    end.
    rewrite Htr in Hin |- *. rewrite Hst.
    destruct W2 as [[-> Hx]|(M & J & line & rest & St & -> & ->)].
    + rewrite Ht1, Ht in Hin |- *. simpl app in Hin |- *.
      apply the_call in Hin as (_ & _ & <-); [|exact Hn].
      apply selects_execute in Sel as [M ->].
      left. destruct (Hx M) as [Hj Hne].
      split; [exact Hj|]. split; [exact Hne|].
      intros H. apply in_app_or in H as [H|[H|[]]];
        [exact (Ha H) | discriminate H].
    + change (trace (answered ?w ?p ?r)) with (trace w ++ [Asked p]) in Hin |- *.
      change (stdin (answered ?w ?p ?r)) with r.
      rewrite Ht1, Ht in Hin |- *. simpl app in Hin |- *.
      assert (Hno : no_calls (es ++ [Asked AskCommand])).
      { apply no_calls_app; [exact Hn | apply no_calls_one; reflexivity]. }
      apply the_call in Hin as (-> & -> & <-); [|exact Hno].
      apply selects_execute in Sel as [_ Htext].
      right. split; [exact J|].
      exists es, used, line.
      split; [rewrite <- app_assoc; reflexivity|].
      split; [exact Ha|].
      split; [rewrite Hs, St; reflexivity|].
      split; [exact Hl | exact Htext].
Qed.

Lemma remembered_after_call (args : list cli_opt) (f : file)
    (answers : list string) (cfg : Config) (ls : option string)
    (c : client_call) :
  In (Called cfg ls c)
     (trace (snd (run_main client EXIT_COMPLETED args f true answers))) ->
  remembers (snd (run_main client EXIT_COMPLETED args f true answers)) cfg
            (resolve_auto (arg_auto (parse_args args)) (saved_of f))
            (kept_hint (arg_clear (parse_args args)) (snd (client cfg ls c))
                       (last_server_entry (saved_of f))).
Proof.
  intros Hin.
  destruct (main_summary client EXIT_COMPLETED args f true answers)
    as [[G Q]|(tu & th & tp & words & host & user & _ & _ & _ & H)].
  { destruct Q as (_ & _ & (es & Ht & Hn) & _). rewrite Ht in Hin.
    destruct (Hn _ _ _ Hin). }
  cbv zeta in H.
  destruct H as [(_ & _ & _ & Hn & _)|(pre & text & c0 & _ & Ht & Hn & _ & _ & R)].
  { destruct (Hn _ _ _ Hin). }
  rewrite Ht in Hin. apply the_call in Hin as (-> & -> & ->); [|exact Hn].
  exact (R eq_refl).
Qed.

Lemma names_of_call (args : list cli_opt) (f : file) (wr : bool)
    (answers : list string) (cfg : Config) (ls : option string)
    (c : client_call) :
  In (Called cfg ls c)
     (trace (snd (run_main client EXIT_COMPLETED args f wr answers))) ->
  PyStr.nonempty (hostname cfg) = true /\ PyStr.nonempty (username cfg) = true.
Proof.
  intros Hin. apply main_calls in Hin.
  destruct Hin as (tu & th & tp & words & _ & [Hh _] & [Hu _] & _).
  split; assumption.
Qed.

(** Once the client is built, the resolved host, user, port and [auto]
    are in the settings file whatever the call does (when the file can
    be written); and the session name kept is the one the client reports
    when it is a non-empty string and the call is not
    [clear_credentials], else the one that was saved before, if any. *)
Theorem settings_are_remembered (args : list cli_opt) (f : file)
    (answers : list string) (cfg : Config) (ls : option string)
    (c : client_call) :
  In (Called cfg ls c)
     (trace (snd (run_main client EXIT_COMPLETED args f true answers))) ->
  exists d,
    config_file (snd (run_main client EXIT_COMPLETED args f true answers))
    = Content d
    /\ dict_get "host" d = Some (JStr (hostname cfg))
    /\ dict_get "user" d = Some (JStr (username cfg))
    /\ dict_get "port" d = Some (json_of_pyint (port cfg))
    /\ dict_get "auto_new_session" d
       = Some (JBool (resolve_auto (arg_auto (parse_args args)) (saved_of f)))
    /\ last_server_entry d
       = kept_hint (arg_clear (parse_args args)) (snd (client cfg ls c))
                   (last_server_entry (saved_of f)).
Proof.
  intros Hin. exact (remembered_after_call args f answers cfg ls c Hin).
Qed.

(** [main] never builds a client with an empty host name or an empty
    user name. *)
Theorem client_has_host_and_user (args : list cli_opt) (f : file) (wr : bool)
    (answers : list string) (cfg : Config) (ls : option string)
    (c : client_call) :
  In (Called cfg ls c)
     (trace (snd (run_main client EXIT_COMPLETED args f wr answers))) ->
  hostname cfg <> EmptyString /\ username cfg <> EmptyString.
Proof.
  intros Hin. destruct (names_of_call _ _ _ _ _ _ _ Hin) as [Hh Hu].
  split; intros E; [rewrite E in Hh | rewrite E in Hu]; discriminate.
Qed.

End MainExtras.

(** ** Runs that end before the client is built *)

Section MainPaths.

Variable client : Config -> option string -> client_call -> Z * option string.
Variable EXIT_COMPLETED : Z.

(** A first positional argument that is shaped like a target but names a
    bad port ends the run with status 1: the error is printed, and
    nothing else happens (no prompt, no write to the settings file, no
    client call), even when [-H] and [-U] would have given a usable
    host and user. *)
Theorem bad_target_ends_the_run (args : list cli_opt) (f : file) (wr : bool)
    (answers : list string) (first : string) (rest : list string) :
  arg_positional (parse_args args) = first :: rest ->
  target_shaped first ->
  TargetSpec.bad_port first ->
  exists e,
    parse_connection_target first = inl e
    /\ run_main client EXIT_COMPLETED args f wr answers
       = (inr 1, mkWorld f wr answers [Printed (ErrorValue e)]).
Proof.
  intros P T B.
  apply bad_port_raises in B as [e E].
  exists e. split; [exact E|].
  unfold run_main. rewrite main_eq. cbv zeta. rewrite P.
  unfold split_positionals.
  rewrite (proj2 (looks_like_target_shaped first) T), E. reflexivity.
Qed.


(** *** Runs that execute a command *)

Lemma run_command_execute (ns : Namespace) (saved : dict) (tp : option Z)
    (words : list string) (host user : string) (w : world) :
  command_mode ns ->
  PyStr.join_spaces words <> EmptyString ->
  let port := resolve_port tp (arg_port ns) saved in
  let auto := resolve_auto (arg_auto ns) saved in
  let ls := str_or_none (dict_get "last_server" saved) in
  run_command client EXIT_COMPLETED ns saved tp words host user w
  = run_and_save client (mkConfig host user port) ls host user auto port
      (Execute (PyStr.join_spaces words) (arg_timeout ns) (arg_idle_timeout ns)
               (arg_new ns) (arg_force ns) auto)
      (snd (save_config host user ls auto port w)).
Proof.
  intros (C & L & U & A & K) J. cbv zeta. unfold run_command. cbv zeta.
  rewrite bind_save_config, C, L, U, A, K.
  destruct (PyStr.join_spaces words) as [|a t]; [contradiction|].
  reflexivity.
Qed.

Lemma run_command_prompt (ns : Namespace) (saved : dict) (tp : option Z)
    (words : list string) (host user : string) (w : world)
    (line : string) (rest : list string) :
  command_mode ns ->
  PyStr.join_spaces words = EmptyString ->
  stdin w = line :: rest ->
  let port := resolve_port tp (arg_port ns) saved in
  let auto := resolve_auto (arg_auto ns) saved in
  let ls := str_or_none (dict_get "last_server" saved) in
  run_command client EXIT_COMPLETED ns saved tp words host user w
  = run_and_save client (mkConfig host user port) ls host user auto port
      (Execute (PyStr.strip line) (arg_timeout ns) (arg_idle_timeout ns)
               (arg_new ns) (arg_force ns) auto)
      (answered (snd (save_config host user ls auto port w)) AskCommand rest).
Proof.
  intros (C & L & U & A & K) J S. cbv zeta. unfold run_command. cbv zeta.
  rewrite bind_save_config, C, L, U, A, K, J. simpl PyStr.nonempty. cbv iota.
  pose proof (save_config_io host user
                (str_or_none (dict_get "last_server" saved))
                (resolve_auto (arg_auto ns) saved)
                (resolve_port tp (arg_port ns) saved) w) as [Hin _].
  unfold bind at 1 2, input. rewrite Hin, S. reflexivity.
Qed.

(** A run that is given a host, a user and a command runs unattended:
    it prints the conflict warnings, calls [execute] once with the words
    joined by single spaces, reads nothing from the input and returns
    what [execute] returned. *)
Theorem given_command_runs_unattended (args : list cli_opt) (f : file)
    (wr : bool) (answers : list string) (tu th : option string)
    (tp : option Z) (words : list string) (host user : string) :
  let ns := parse_args args in
  let saved := saved_of f in
  split_positionals (arg_positional ns) = inr ((tu, th, tp), words) ->
  resolve_name "host" th (arg_host ns) saved = Some host ->
  host <> EmptyString ->
  resolve_name "user" tu (arg_user ns) saved = Some user ->
  user <> EmptyString ->
  command_mode ns ->
  PyStr.join_spaces words <> EmptyString ->
  let cfg := mkConfig host user (resolve_port tp (arg_port ns) saved) in
  let ls := last_server_entry saved in
  let call := Execute (PyStr.join_spaces words) (arg_timeout ns)
                      (arg_idle_timeout ns) (arg_new ns) (arg_force ns)
                      (resolve_auto (arg_auto ns) saved) in
  let run := run_main client EXIT_COMPLETED args f wr answers in
  fst run = inr (fst (client cfg ls call))
  /\ trace (snd run) = warnings ns tu th tp ++ [Called cfg ls call]
  /\ stdin (snd run) = answers.
Proof.
  cbv zeta. intros S Hh Nh Hu Nu M J. unfold run_main, last_server_entry.
  rewrite main_eq. cbv zeta. simpl config_file. rewrite S.
  rewrite (or_ask_resolved _ _ _ _ host _ Hh (truthy_some host Nh)).
  rewrite (or_ask_resolved _ _ _ _ user _ Hu (truthy_some user Nu)).
  rewrite (run_command_execute _ _ _ _ _ _ _ M J). cbv zeta.
  match goal with
  | |- context [run_and_save _ ?cfg ?ls ?h ?u ?a ?p ?c ?w0] =>
      destruct (run_and_save_result client cfg ls h u a p c w0) as (Hf & Ht & Hs)
  end.
  rewrite Hf, Ht, Hs.
  match goal with
  | |- context [save_config ?h ?u ?l ?a ?p ?w0] =>
      destruct (save_config_io h u l a p w0) as (Hi1 & Ht1 & _)
  end.
  rewrite Hi1, Ht1. repeat split.
Qed.

(** The command typed at the prompt is not checked: a blank line makes
    [main] call [execute] with the empty command, where a blank host or
    user ends the run. *)
Theorem blank_command_is_executed (args : list cli_opt) (f : file)
    (wr : bool) (line : string) (rest : list string) (tu th : option string)
    (tp : option Z) (words : list string) (host user : string) :
  let ns := parse_args args in
  let saved := saved_of f in
  split_positionals (arg_positional ns) = inr ((tu, th, tp), words) ->
  resolve_name "host" th (arg_host ns) saved = Some host ->
  host <> EmptyString ->
  resolve_name "user" tu (arg_user ns) saved = Some user ->
  user <> EmptyString ->
  command_mode ns ->
  PyStr.join_spaces words = EmptyString ->
  PyStr.strip line = EmptyString ->
  let cfg := mkConfig host user (resolve_port tp (arg_port ns) saved) in
  let ls := last_server_entry saved in
  let call := Execute EmptyString (arg_timeout ns) (arg_idle_timeout ns)
                      (arg_new ns) (arg_force ns)
                      (resolve_auto (arg_auto ns) saved) in
  let run := run_main client EXIT_COMPLETED args f wr (line :: rest) in
  fst run = inr (fst (client cfg ls call))
  /\ trace (snd run)
     = warnings ns tu th tp ++ [Asked AskCommand; Called cfg ls call].
Proof.
  cbv zeta. intros S Hh Nh Hu Nu M J B. unfold run_main, last_server_entry.
  rewrite main_eq. cbv zeta. simpl config_file. rewrite S.
  rewrite (or_ask_resolved _ _ _ _ host _ Hh (truthy_some host Nh)).
  rewrite (or_ask_resolved _ _ _ _ user _ Hu (truthy_some user Nu)).
  erewrite run_command_prompt by (exact M || exact J || reflexivity). cbv zeta.
  rewrite B.
  match goal with
  | |- context [run_and_save _ ?cfg ?ls ?h ?u ?a ?p ?c ?w0] =>
      destruct (run_and_save_result client cfg ls h u a p c w0) as (Hf & Ht & _)
  end.
  rewrite Hf, Ht.
  match goal with
  | |- context [save_config ?h ?u ?l ?a ?p ?w0] =>
      destruct (save_config_io h u l a p w0) as (_ & Ht1 & _)
  end.
  change (trace (answered ?w ?p ?r)) with (trace w ++ [Asked p]).
  rewrite Ht1, trace_emit. simpl trace.
  rewrite <- !app_assoc. split; reflexivity.
Qed.

End MainPaths.

(** ** From one run to the next *)

Section NextRun.

Variable client : Config -> option string -> client_call -> Z * option string.
Variable EXIT_COMPLETED : Z.

Lemma pyint_round_trip (p : pyint) :
  match json_of_pyint p with
  | JInt m => PyInt m
  | JBool b => PyBool b
  | _ => PyInt 22
  end = p.
Proof. destruct p; reflexivity. Qed.

(** What one run saves, the next run uses.  After a run that reached the
    client (settings file writable), a run on the file it left, with no
    connection target and no usable [-H], [-U] and [-p], builds its
    client for the same host, user and port, hands it the session name
    the first run kept, and, without [--auto] or [--no-auto], passes
    [execute] the [auto] setting of the first run. *)
Theorem settings_carry_over (args1 args2 : list cli_opt) (f : file)
    (wr2 : bool) (answers1 answers2 : list string) (cfg1 cfg2 : Config)
    (ls1 ls2 : option string) (c1 c2 : client_call) (words : list string) :
  let run1 := run_main client EXIT_COMPLETED args1 f true answers1 in
  let run2 := run_main client EXIT_COMPLETED args2 (config_file (snd run1))
                       wr2 answers2 in
  let ns2 := parse_args args2 in
  In (Called cfg1 ls1 c1) (trace (snd run1)) ->
  In (Called cfg2 ls2 c2) (trace (snd run2)) ->
  split_positionals (arg_positional ns2) = inr ((None, None, None), words) ->
  truthy_str (arg_host ns2) = false ->
  truthy_str (arg_user ns2) = false ->
  truthy_int (arg_port ns2) = false ->
  cfg2 = cfg1
  /\ ls2 = kept_hint (arg_clear (parse_args args1)) (snd (client cfg1 ls1 c1))
                     (last_server_entry (saved_of f))
  /\ (arg_auto ns2 = None ->
      forall text t i n fo a,
        c2 = Execute text t i n fo a ->
        a = resolve_auto (arg_auto (parse_args args1)) (saved_of f)).
Proof.
  cbv zeta. intros H1 H2 S Th Tu Tp.
  destruct (remembered_after_call client EXIT_COMPLETED _ _ _ _ _ _ H1)
    as (d & Hd & Gh & Gu & Gp & Ga & Gl).
  destruct (names_of_call client EXIT_COMPLETED _ _ _ _ _ _ _ H1) as [Nh Nu].
  apply main_calls in H2. rewrite Hd in H2.
  destruct H2 as (tu & th & tp & words' & S' & Hh & Hu & Hp & Hl & Hc).
  rewrite S in S'. injection S' as <- <- <- <-.
  simpl saved_of in *.
  unfold resolve_name in Hh, Hu.
  rewrite !or_str_skip in Hh by (reflexivity || exact Th).
  rewrite !or_str_skip in Hu by (reflexivity || exact Tu).
  rewrite Gh in Hh. rewrite Gu in Hu. simpl str_or_none in Hh, Hu.
  destruct Hh as [_ Hh]. destruct Hu as [_ Hu].
  specialize (Hh Nh). specialize (Hu Nu).
  rewrite saved_port in Hp by exact Tp.
  unfold dict_get_default in Hp. rewrite Gp, pyint_round_trip in Hp.
  split; [|split].
  - destruct cfg1, cfg2. simpl in *. congruence.
  - rewrite Hl. exact Gl.
  - intros A text t i n fo a ->. unfold call_from in Hc.
    destruct Hc as (_ & _ & _ & _ & ->).
    unfold resolve_auto at 1. rewrite A. unfold dict_get_default.
    rewrite Ga. reflexivity.
Qed.

(** *** The settings file is only read once *)

Lemma same_io_refl (w : world) : same_io w w.
Proof. split; reflexivity. Qed.

Lemma blind_ret {A : Type} (a : A) : blind (ret a).
Proof. intros w1 w2 H. split; [reflexivity | exact H]. Qed.

Lemma blind_bind {A B : Type} (m : M A) (k : A -> M B) :
  blind m -> (forall a, blind (k a)) -> blind (bind m k).
Proof.
  intros Hm Hk w1 w2 H. unfold bind. destruct (Hm w1 w2 H) as [E H'].
  destruct (m w1) as [[e1|a1] w1'], (m w2) as [[e2|a2] w2']; simpl in *;
    try discriminate.
  - injection E as <-. split; [reflexivity | exact H'].
  - injection E as <-. exact (Hk a1 w1' w2' H').
Qed.

Lemma blind_log (e : event) : blind (log e).
Proof.
  intros w1 w2 [Hs Ht]. unfold log, same_io. simpl. rewrite Hs, Ht. auto.
Qed.

Lemma blind_input (p : prompt) : blind (input p).
Proof.
  intros w1 w2 [Hs Ht]. unfold input, same_io. rewrite Hs, Ht.
  destruct (stdin w2); simpl; auto.
Qed.

Lemma blind_save_config (host user : string) (ls : option string)
    (auto : bool) (port : pyint) : blind (save_config host user ls auto port).
Proof.
  intros w1 w2 [Hs Ht]. unfold save_config, same_io.
  destruct (config_writable w1), (config_writable w2); simpl; auto.
Qed.

Lemma blind_or_ask (resolved : option string) (p : prompt) (required : message)
    (k : string -> M Z) :
  (forall name, blind (k name)) -> blind (or_ask resolved p required k).
Proof.
  intros Hk. unfold or_ask. destruct (truthy_str resolved).
  - destruct resolved; [apply Hk | apply blind_ret].
  - apply blind_bind; [apply blind_input|]. intros line.
    destruct (PyStr.nonempty (PyStr.strip line)); [apply Hk|].
    apply blind_bind; [apply blind_log | intros; apply blind_ret].
Qed.

Lemma blind_run_and_save (cfg : Config) (ls : option string)
    (host user : string) (auto : bool) (port : pyint) (c : client_call) :
  blind (run_and_save client cfg ls host user auto port c).
Proof.
  unfold run_and_save, call_client.
  apply blind_bind.
  - apply blind_bind; [apply blind_log | intros; apply blind_ret].
  - intros [result current]. apply blind_bind; [|intros; apply blind_ret].
    unfold when. destruct (truthy_str current);
      [apply blind_save_config | apply blind_ret].
Qed.

Lemma blind_run_command (ns : Namespace) (saved : dict) (tp : option Z)
    (words : list string) (host user : string) :
  blind (run_command client EXIT_COMPLETED ns saved tp words host user).
Proof.
  unfold run_command. cbv zeta.
  apply blind_bind; [apply blind_save_config|]. intros ?.
  destruct (arg_clear ns).
  { apply blind_bind; [|intros; apply blind_ret].
    unfold call_client.
    apply blind_bind; [apply blind_log | intros; apply blind_ret]. }
  destruct (arg_list ns); [apply blind_run_and_save|].
  destruct (arg_cleanup ns); [apply blind_run_and_save|].
  destruct (arg_attach ns); [apply blind_run_and_save|].
  destruct (arg_kill ns); [apply blind_run_and_save|].
  apply blind_bind; [|intros; apply blind_run_and_save].
  destruct (PyStr.nonempty (PyStr.join_spaces words)); [apply blind_ret|].
  apply blind_bind; [apply blind_input | intros; apply blind_ret].
Qed.

(** [main] reads the settings file once, at the start, and never looks
    at what it writes: two runs on files that hold the same settings
    (a missing, unreadable or malformed file counts as an empty one),
    writable or not, return the same status, leave the same trace and
    consume the same input. *)
Theorem main_depends_on_saved_settings_only (args : list cli_opt)
    (f1 f2 : file) (wr1 wr2 : bool) (answers : list string) :
  saved_of f1 = saved_of f2 ->
  let run1 := run_main client EXIT_COMPLETED args f1 wr1 answers in
  let run2 := run_main client EXIT_COMPLETED args f2 wr2 answers in
  fst run1 = fst run2
  /\ trace (snd run1) = trace (snd run2)
  /\ stdin (snd run1) = stdin (snd run2).
Proof.
  intros E. cbv zeta. unfold run_main. rewrite !main_eq. cbv zeta.
  simpl config_file. rewrite E.
  destruct (split_positionals (arg_positional (parse_args args)))
    as [e|[[[tu th] tp] words]].
  - simpl. auto.
  - match goal with
    | |- context [or_ask ?r ?p ?m ?k (emit ?wa ?ws)] =>
        assert (B : blind (or_ask r p m k))
    end.
    { apply blind_or_ask. intros host. apply blind_or_ask. intros user.
      apply blind_run_command. }
    match goal with
    | |- fst (?m ?wa) = fst (?m ?wb) /\ _ =>
        destruct (B wa wb) as [Hr [Hs Ht]]; [split; reflexivity|]
    end.
    auto.
Qed.

End NextRun.

(** ** Concrete runs for the further properties *)

Lemma mode_flags_select_the_call_witness :
  In (Called (mkConfig "example.org" "bob" (PyInt 22)) None ClearCredentials)
     (trace (snd (run_main sample_client 0
                           (OptList :: OptClear :: sample_args) Missing true [])))
  /\ (arg_clear (parse_args (OptList :: OptClear :: sample_args)) = true ->
      ClearCredentials = ClearCredentials).
Proof.
  assert (H : In (Called (mkConfig "example.org" "bob" (PyInt 22)) None
                         ClearCredentials)
                 (trace (snd (run_main sample_client 0
                                       (OptList :: OptClear :: sample_args)
                                       Missing true [])))).
  { simpl. left. reflexivity. }
  split; [exact H|].
  exact (proj1 (mode_flags_select_the_call sample_client 0
                  (OptList :: OptClear :: sample_args) Missing true []
                  (mkConfig "example.org" "bob" (PyInt 22)) None
                  ClearCredentials H)).
Defined.

Lemma executed_command_witness :
  let run := run_main sample_client 0 [Positional "script.py"] Missing true
                      ["bob"; "  ls -l  "; "unread"] in
  exists tu th tp words,
    split_positionals (arg_positional (parse_args [Positional "script.py"]))
    = inr ((tu, th, tp), words)
    /\ (("ls -l" = PyStr.join_spaces words /\ "ls -l" <> EmptyString
         /\ ~ In (Asked AskCommand) (trace (snd run)))
        \/ (PyStr.join_spaces words = EmptyString
            /\ exists pre before line,
                trace (snd run)
                = pre ++ [Asked AskCommand;
                          Called (mkConfig "script.py" "bob" (PyInt 22)) None
                                 (Execute "ls -l" None 3600 false false true)]
                /\ ~ In (Asked AskCommand) pre
                /\ ["bob"; "  ls -l  "; "unread"]
                   = before ++ line :: stdin (snd run)
                /\ List.length before = prompts pre
                /\ "ls -l" = PyStr.strip line)).
Proof.
  apply (executed_command sample_client 0 [Positional "script.py"] Missing
           true ["bob"; "  ls -l  "; "unread"]
           (mkConfig "script.py" "bob" (PyInt 22)) None
           "ls -l" None 3600 false false true).
  simpl. right. right. left. reflexivity.
Defined.

Lemma settings_are_remembered_witness :
  exists d,
    config_file (snd (run_main silent_client 0 no_auto_args
                               (Content sample_settings) true []))
    = Content d
    /\ dict_get "host" d = Some (JStr "example.org")
    /\ dict_get "user" d = Some (JStr "bob")
    /\ dict_get "port" d = Some (JInt 2222)
    /\ dict_get "auto_new_session" d = Some (JBool false)
    /\ last_server_entry d = Some "task_7".
Proof.
  apply (settings_are_remembered silent_client 0 no_auto_args
           (Content sample_settings) []
           (mkConfig "example.org" "bob" (PyInt 2222)) (Some "task_7")
           (Execute "ls" None 3600 false false false)).
  simpl. left. reflexivity.
Defined.

Lemma client_has_host_and_user_witness :
  "script.py" <> EmptyString /\ "bob" <> EmptyString.
Proof.
  apply (client_has_host_and_user sample_client 0 [Positional "script.py"]
           Missing true ["bob"; "ls"]
           (mkConfig "script.py" "bob" (PyInt 22)) None
           (Execute "ls" None 3600 false false true)).
  simpl. right. right. left. reflexivity.
Defined.

Lemma bad_target_ends_the_run_witness :
  exists e,
    parse_connection_target "bob@example.org:http" = inl e
    /\ run_main sample_client 0
                [OptHost "other.org"; Positional "bob@example.org:http";
                 Positional "ls"]
                (Content sample_settings) true ["unused"]
       = (inr 1, mkWorld (Content sample_settings) true ["unused"]
                         [Printed (ErrorValue e)]).
Proof.
  apply (bad_target_ends_the_run sample_client 0
           [OptHost "other.org"; Positional "bob@example.org:http";
            Positional "ls"]
           (Content sample_settings) true ["unused"]
           "bob@example.org:http" ["ls"]).
  - reflexivity.
  - left. reflexivity.
  - exists "http". split; [reflexivity|]. left. reflexivity.
Defined.


Lemma given_command_runs_unattended_witness :
  fst (run_main sample_client 0 sample_args Missing true ["unused"])
  = inr (fst (sample_client (mkConfig "example.org" "bob" (PyInt 22)) None
                            (Execute "ls" None 3600 false false true)))
  /\ trace (snd (run_main sample_client 0 sample_args Missing true ["unused"]))
     = warnings (parse_args sample_args) (Some "bob") (Some "example.org") None
       ++ [Called (mkConfig "example.org" "bob" (PyInt 22)) None
                  (Execute "ls" None 3600 false false true)]
  /\ stdin (snd (run_main sample_client 0 sample_args Missing true ["unused"]))
     = ["unused"].
Proof.
  apply (given_command_runs_unattended sample_client 0 sample_args Missing
           true ["unused"] (Some "bob") (Some "example.org") None ["ls"]
           "example.org" "bob");
    try reflexivity; try discriminate.
  repeat split; reflexivity.
Defined.

Lemma blank_command_is_executed_witness :
  fst (run_main sample_client 0 [Positional "bob@example.org"] Missing true
                [" "])
  = inr (fst (sample_client (mkConfig "example.org" "bob" (PyInt 22)) None
                            (Execute EmptyString None 3600 false false true)))
  /\ trace (snd (run_main sample_client 0 [Positional "bob@example.org"]
                          Missing true [" "]))
     = warnings (parse_args [Positional "bob@example.org"])
                (Some "bob") (Some "example.org") None
       ++ [Asked AskCommand;
           Called (mkConfig "example.org" "bob" (PyInt 22)) None
                  (Execute EmptyString None 3600 false false true)].
Proof.
  apply (blank_command_is_executed sample_client 0
           [Positional "bob@example.org"] Missing true " " []
           (Some "bob") (Some "example.org") None [] "example.org" "bob");
    try reflexivity; try discriminate.
  repeat split; reflexivity.
Defined.

Lemma settings_carry_over_witness :
  mkConfig "example.org" "bob" (PyInt 22)
  = mkConfig "example.org" "bob" (PyInt 22)
  /\ Some "remote_task"
     = kept_hint (arg_clear (parse_args no_auto_args))
                 (snd (sample_client (mkConfig "example.org" "bob" (PyInt 22))
                                     None
                                     (Execute "ls" None 3600 false false false)))
                 (last_server_entry (saved_of Missing))
  /\ (arg_auto (parse_args bare_args) = None ->
      forall text t i n fo a,
        Execute "uptime" None 3600 false false false = Execute text t i n fo a ->
        a = resolve_auto (arg_auto (parse_args no_auto_args)) (saved_of Missing)).
Proof.
  apply (settings_carry_over sample_client 0 no_auto_args bare_args Missing
           false [] [] (mkConfig "example.org" "bob" (PyInt 22))
           (mkConfig "example.org" "bob" (PyInt 22)) None (Some "remote_task")
           (Execute "ls" None 3600 false false false)
           (Execute "uptime" None 3600 false false false) ["uptime"]).
  - simpl. left. reflexivity.
  - simpl. left. reflexivity.
  - reflexivity.
  - reflexivity.
  - reflexivity.
  - reflexivity.
Defined.

Lemma main_depends_on_saved_settings_only_witness :
  fst (run_main sample_client 0 bare_args Malformed false ["h.org"; "bob"])
  = fst (run_main sample_client 0 bare_args (Content []) true ["h.org"; "bob"])
  /\ trace (snd (run_main sample_client 0 bare_args Malformed false
                          ["h.org"; "bob"]))
     = trace (snd (run_main sample_client 0 bare_args (Content []) true
                            ["h.org"; "bob"]))
  /\ stdin (snd (run_main sample_client 0 bare_args Malformed false
                          ["h.org"; "bob"]))
     = stdin (snd (run_main sample_client 0 bare_args (Content []) true
                            ["h.org"; "bob"])).
Proof.
  apply (main_depends_on_saved_settings_only sample_client 0 bare_args
           Malformed (Content []) false true ["h.org"; "bob"]).
  reflexivity.
Defined.
